(** * matrix-health: delegation resolver, reachability probe and room sweep

    A shallow embedding of [main.go].  The pure helpers are Rocq functions
    over byte strings.  The code that talks to the network or to the Matrix
    client runs in a small monad that threads the state of the outside world
    and records every external call and every console line, in order; the
    answers come from an environment, so a property proved for every
    environment holds whatever the network, the DNS and the homeserver do.

    The [ctx] and [client] arguments of the Go functions are part of the
    environment.  The deferred [resp.Body.Close()] has no effect the program
    can see and is left out.  JSON decoding is Go's [encoding/json]: the
    program only looks at the error of [Decode] and at the decoded
    [m.server] field, and the environment supplies both. *)

From Stdlib Require Import String Ascii List ZArith NArith Bool Lia.
From Stdlib Require Import DecimalString.
Import ListNotations.
Local Open Scope list_scope.
Local Open Scope string_scope.

(** ** The pieces of Go's [strings] and [fmt] packages the program calls *)

Module strings.

(** [strings.Split(s, sep)] for a one-byte separator: every piece between two
    occurrences of [sep]; a string without [sep] gives the one-element slice
    holding [s] itself. *)
Fixpoint Split (s : string) (sep : ascii) : list string :=
  match s with
  | EmptyString => [EmptyString]
  | String c rest =>
      if Ascii.eqb c sep then EmptyString :: Split rest sep
      else match Split rest sep with
           | [] => [String c EmptyString]
           | piece :: pieces => String c piece :: pieces
           end
  end.

(** Membership of a byte in a cutset. *)
Fixpoint inCutset (c : ascii) (cutset : string) : bool :=
  match cutset with
  | EmptyString => false
  | String d rest => Ascii.eqb c d || inCutset c rest
  end.

(** [strings.TrimLeft(s, cutset)]. *)
Fixpoint TrimLeft (s cutset : string) : string :=
  match s with
  | EmptyString => EmptyString
  | String c rest => if inCutset c cutset then TrimLeft rest cutset else s
  end.

(** [strings.TrimRight(s, cutset)]. *)
Fixpoint TrimRight (s cutset : string) : string :=
  match s with
  | EmptyString => EmptyString
  | String c rest =>
      match TrimRight rest cutset with
      | EmptyString => if inCutset c cutset then EmptyString else String c EmptyString
      | kept => String c kept
      end
  end.

(** [strings.Trim(s, cutset)]: all leading and all trailing bytes of [cutset]
    removed. *)
Definition Trim (s cutset : string) : string :=
  TrimRight (TrimLeft s cutset) cutset.

(** [strings.TrimSuffix(s, suffix)] for a one-byte suffix: at most one
    trailing occurrence removed. *)
Fixpoint TrimSuffix (s : string) (suffix : ascii) : string :=
  match s with
  | EmptyString => EmptyString
  | String c EmptyString => if Ascii.eqb c suffix then EmptyString else s
  | String c rest => String c (TrimSuffix rest suffix)
  end.

(** [strings.HasPrefix(s, prefix)]. *)
Definition HasPrefix (s pre : string) : bool := String.prefix pre s.

(** [strings.Join(elems, sep)]. *)
Definition Join (elems : list string) (sep : string) : string :=
  String.concat sep elems.

End strings.

Module fmt.

(** The verb [%d] applied to an integer. *)
Definition decimal (n : Z) : string := NilZero.string_of_int (Z.to_int n).

End fmt.

(** Go's built-in [append] with one element. *)
Definition append {A : Type} (s : list A) (x : A) : list A := (s ++ [x])%list.

(** The line feed written ["\n"] in the Go source. *)
Definition LF : string := String (ascii_of_nat 10) EmptyString.

(** ** [extractDomain] *)

(** [extractDomain] extracts the domain part of a Matrix UserID. *)
Definition extractDomain (userID : string) : string :=
  let parts := strings.Split userID ":"%char in
  if (1 <? length parts)%nat then nth 1 parts EmptyString else EmptyString.

(** ** Values exchanged with the outside world *)

(** A Go [error]: [None] is [nil], [Some msg] an error printing as [msg]. *)
Definition error : Type := option string.
Definition nil_error : error := None.

Definition isNil (err : error) : bool :=
  match err with None => true | Some _ => false end.

(** A call that hands back either a value or a non-nil error. *)
Inductive result (A : Type) : Type :=
| Success (a : A)
| Failure (msg : string).
Arguments Success {A} a.
Arguments Failure {A} msg.

(** [time.Duration]: a signed 64-bit count of nanoseconds. *)
Definition Duration : Type := Z.
Definition Second : Duration := 1000000000%Z.
Definition wrap64 (z : Z) : Z := ((z + 2 ^ 63) mod 2 ^ 64 - 2 ^ 63)%Z.

(** [http.StatusOK]. *)
Definition StatusOK : Z := 200%Z.

(** The parts of [http.Response] the program reads; [Body] is the payload
    its reader delivers. *)
Record Response : Type := {
  StatusCode : Z;
  Body : string
}.

(** [net.SRV]. *)
Record SRV : Type := {
  Target : string;
  Port : N;
  Priority : N;
  Weight : N
}.

(** Config represents the structure of the YAML configuration file. *)
Record Config : Type := {
  ServerName : string;
  Username : string;
  Password : string;
  LogRoom : string;
  Interval : Z
}.

(** What the program does to the outside world, in the order it does it. *)
Inductive Action : Type :=
| HttpGet (timeout : option Duration) (url : string)
| LookupSRV (service proto name : string)
| JoinedRooms
| JoinedMembers (roomID : string)
| StateEvent (roomID eventType stateKey : string)
| SendText (roomID text : string)
| Print (text : string)
| Sleep (d : Duration).

(** The outside world: a state of type [W] and, for each external call of the
    program, the answer it gives and the state it moves to.  The two JSON
    decoders stand for [json.NewDecoder(body).Decode(&result)] at the two
    targets the program decodes into. *)
Record Env (W : Type) : Type := {
  (** [http.Get] ([timeout = None]) and [(&http.Client{Timeout: d}).Get]. *)
  http_Get : option Duration -> string -> W -> result Response * W;
  (** [net.LookupSRV]: the records and the error. *)
  net_LookupSRV : string -> string -> string -> W -> (list SRV * error) * W;
  (** [result] is [struct { Server string `json:"m.server"` }]: the value of
      [result.Server] after the call, and the error. *)
  json_Decode_server : string -> string * error;
  (** [result] is [map[string]interface{}]: the error. *)
  json_Decode_object : string -> error;
  (** [client.JoinedRooms]: the room identifiers. *)
  client_JoinedRooms : W -> result (list string) * W;
  (** [client.JoinedMembers]: the keys of [resp.Joined] in the order the
      [range] loop visits them. *)
  client_JoinedMembers : string -> W -> result (list string) * W;
  (** [client.StateEvent] into a struct with a single string field: the value
      of that field after the call, and the error. *)
  client_StateEvent : string -> string -> string -> W -> (string * error) * W;
  (** [client.SendText]: the error. *)
  client_SendText : string -> string -> W -> error * W
}.
Arguments http_Get {W} _ _ _ _.
Arguments net_LookupSRV {W} _ _ _ _ _.
Arguments json_Decode_server {W} _ _.
Arguments json_Decode_object {W} _ _.
Arguments client_JoinedRooms {W} _ _.
Arguments client_JoinedMembers {W} _ _ _.
Arguments client_StateEvent {W} _ _ _ _ _.
Arguments client_SendText {W} _ _ _ _.

(** ** The monad the effectful code runs in *)

(** A computation takes the state of the world and gives its value, the
    actions it performed and the state of the world afterwards. *)
Definition IO (W A : Type) : Type := W -> A * list Action * W.

Definition ret {W A : Type} (a : A) : IO W A := fun w => (a, [], w).

Definition bind {W A B : Type} (m : IO W A) (k : A -> IO W B) : IO W B :=
  fun w =>
    let '(a, t1, w1) := m w in
    let '(b, t2, w2) := k a w1 in
    (b, (t1 ++ t2)%list, w2).

(** An external call: ask the world, log the action. *)
Definition call {W A : Type} (a : Action) (ask : W -> A * W) : IO W A :=
  fun w => let '(x, w1) := ask w in (x, [a], w1).

(** An action the world gives no answer to. *)
Definition emit {W : Type} (a : Action) : IO W unit := fun w => (tt, [a], w).

Declare Scope io_scope.
Delimit Scope io_scope with io.
Notation "x <- m ;; k" := (bind m (fun x => k))
  (at level 61, m at next level, right associativity) : io_scope.
Notation "' pat <- m ;; k" := (bind m (fun x => match x with pat => k end))
  (at level 61, pat pattern, m at next level, right associativity) : io_scope.
Notation "m ;; k" := (bind m (fun _ => k))
  (at level 61, right associativity) : io_scope.
Local Open Scope io_scope.

Definition value {W A : Type} (r : A * list Action * W) : A := fst (fst r).
Definition trace {W A : Type} (r : A * list Action * W) : list Action := snd (fst r).
Definition final {W A : Type} (r : A * list Action * W) : W := snd r.

(** The messages a trace sends, as (room, text) pairs. *)
Fixpoint sent (t : list Action) : list (string * string) :=
  match t with
  | [] => []
  | SendText roomID text :: rest => (roomID, text) :: sent rest
  | _ :: rest => sent rest
  end.

(** The console output of a trace. *)
Fixpoint printed (t : list Action) : list string :=
  match t with
  | [] => []
  | Print text :: rest => text :: printed rest
  | _ :: rest => printed rest
  end.

(** The trace without its console output: the calls that reach the network
    or the Matrix client. *)
Fixpoint calls (t : list Action) : list Action :=
  match t with
  | [] => []
  | Print _ :: rest => calls rest
  | a :: rest => a :: calls rest
  end.

Section Program.

Context {W : Type}.
Variable env : Env W.

(** ** [resolveMatrixServer] *)

(** resolveMatrixServer resolves the actual Matrix server URL using
    .well-known, DNS SRV, or fallback to server-name.com:8448.  The early
    [return] of step 1 is the [Some] of [delegated]. *)
Definition resolveMatrixServer (server : string) : IO W (string * error) :=
  let url := "https://" ++ server ++ "/.well-known/matrix/server" in
  got <- call (HttpGet None url) (http_Get env None url) ;;
  let delegated :=
    match got with
    | Success resp =>
        if (StatusCode resp =? StatusOK)%Z then
          let '(Server, err) := json_Decode_server env (Body resp) in
          if isNil err && negb (Server =? "")%string then Some Server else None
        else None
    | Failure _ => None
    end in
  match delegated with
  | Some Server => ret (Server, nil_error)
  | None =>
      '(srvRecords, err) <- call (LookupSRV "matrix" "tcp" server)
                                 (net_LookupSRV env "matrix" "tcp" server) ;;
      match err, srvRecords with
      | None, srv :: _ =>
          ret (strings.Trim (Target srv) "." ++ ":" ++ fmt.decimal (Z.of_N (Port srv)),
               nil_error)
      | _, _ => ret (server ++ ":8448", nil_error)
      end
  end.

(** ** [checkServerOnline] *)

(** checkServerOnline checks if a server is online by sending a GET request
    to the Matrix federation version endpoint. *)
Definition checkServerOnline (server : string) : IO W bool :=
  let url := "https://" ++ server ++ "/_matrix/federation/v1/version" in
  let timeout := Some (5 * Second)%Z in
  got <- call (HttpGet timeout url) (http_Get env timeout url) ;;
  match got with
  | Failure err =>
      emit (Print ("Failed to reach server " ++ server ++ ": " ++ err ++ LF)) ;;
      ret false
  | Success resp =>
      match json_Decode_object env (Body resp) with
      | Some err =>
          emit (Print ("Invalid JSON response from server " ++ server ++ ": " ++ err ++ LF)) ;;
          ret false
      | None => ret true
      end
  end.

(** ** [checkServer] *)

(** checkServer resolves and checks the online status of a server. *)
Definition checkServer (server : string) : IO W string :=
  '(matrixServer, err) <- resolveMatrixServer server ;;
  match err with
  | Some msg => ret ("Failed (Delegation Failed: " ++ msg ++ ")")
  | None =>
      online <- checkServerOnline matrixServer ;;
      if online then ret "OK" else ret "Failed (Unreachable)"
  end.

(** ** [getRoomDetails] and [sendMessageToRoom] *)

(** getRoomDetails fetches the main alias and title of a room. *)
Definition getRoomDetails (roomID : string) : IO W (string * string) :=
  '(Name, err) <- call (StateEvent roomID "m.room.name" "")
                       (client_StateEvent env roomID "m.room.name" "") ;;
  let Name := if negb (isNil err) || (Name =? "")%string then "(unknown title)" else Name in
  '(Alias, err) <- call (StateEvent roomID "m.room.canonical_alias" "")
                        (client_StateEvent env roomID "m.room.canonical_alias" "") ;;
  if negb (isNil err) || (Alias =? "")%string then
    emit (Print ("No canonical alias found for room " ++ roomID ++ LF)) ;;
    ret (roomID, Name)
  else ret (Alias, Name).

(** sendMessageToRoom sends a message to a Matrix room. *)
Definition sendMessageToRoom (roomID message : string) : IO W error :=
  call (SendText roomID message) (client_SendText env roomID message).

(** ** [runServerCheckLoop] *)

Variable config : Config.

(** The loop [for userID := range resp.Joined], threading the two slices it
    appends to. *)
Fixpoint checkMembers (joined : list string) (serverStatus failedServers : list string)
  : IO W (list string * list string) :=
  match joined with
  | [] => ret (serverStatus, failedServers)
  | userID :: rest =>
      let server := extractDomain userID in
      status <- checkServer server ;;
      let serverStatus := append serverStatus (server ++ " - " ++ status) in
      let failedServers :=
        if strings.HasPrefix status "Failed"
        then append failedServers (server ++ " - " ++ status)
        else failedServers in
      checkMembers rest serverStatus failedServers
  end.

(** The body of the loop [for _, roomID := range joinedRooms.JoinedRooms]. *)
Definition checkRoom (roomID : string) : IO W unit :=
  if (roomID =? LogRoom config)%string then
    emit (Print ("Skipping log room: " ++ LogRoom config ++ LF))
  else
    '(roomAlias, roomTitle) <- getRoomDetails roomID ;;
    let roomDescription := roomAlias ++ " - " ++ roomTitle ++ " ( " ++ roomID ++ " )" in
    emit (Print ("Testing servers in room: " ++ roomDescription ++ LF)) ;;
    resp <- call (JoinedMembers roomID) (client_JoinedMembers env roomID) ;;
    match resp with
    | Failure err =>
        emit (Print ("Failed to get joined members for room " ++ roomID ++ ": " ++ err ++ LF))
    | Success joined =>
        '(serverStatus, failedServers) <- checkMembers joined [] [] ;;
        let fullStatusMessage :=
          "Server statuses in room " ++ roomDescription ++ ":" ++ LF
          ++ strings.Join serverStatus LF in
        emit (Print (fullStatusMessage ++ LF)) ;;
        if (0 <? length failedServers)%nat then
          let failedStatusMessage :=
            "Failed servers in room " ++ roomDescription ++ ":" ++ LF
            ++ strings.Join failedServers LF in
          sendMessageToRoom (LogRoom config) failedStatusMessage ;;
          ret tt
        else
          let successMessage := "All Servers in room " ++ roomDescription ++ " are OK" in
          sendMessageToRoom (LogRoom config) successMessage ;;
          ret tt
    end.

(** The loop over the joined rooms. *)
Fixpoint checkRooms (rooms : list string) : IO W unit :=
  match rooms with
  | [] => ret tt
  | roomID :: rest => checkRoom roomID ;; checkRooms rest
  end.

(** One turn of the endless [for] loop of [runServerCheckLoop]. *)
Definition sweep : IO W unit :=
  emit (Print ("Checking server statuses..." ++ LF)) ;;
  joinedRooms <- call JoinedRooms (client_JoinedRooms env) ;;
  match joinedRooms with
  | Failure err =>
      emit (Print ("Failed to fetch joined rooms: " ++ err ++ LF)) ;;
      emit (Sleep (wrap64 (wrap64 (Interval config) * Second)%Z))
  | Success rooms =>
      checkRooms rooms ;;
      emit (Print ("Waiting for " ++ fmt.decimal (Interval config) ++ " seconds" ++ LF)) ;;
      emit (Sleep (wrap64 (wrap64 (Interval config) * Second)%Z))
  end.

(** runServerCheckLoop performs checks for offline servers at the specified
    interval: its first [turns] turns. *)
Fixpoint runServerCheckLoop (turns : nat) : IO W unit :=
  match turns with
  | O => ret tt
  | S n => sweep ;; runServerCheckLoop n
  end.

End Program.

(** ** What the specification's words say, for comparison with the code *)

(** "Splits on the first [:] character; returns the substring after it.
    Returns empty string if no [:] present." *)
Fixpoint afterFirstColon (participantID : string) : string :=
  match participantID with
  | EmptyString => EmptyString
  | String c rest => if Ascii.eqb c ":"%char then rest else afterFirstColon rest
  end.

(** Whether a byte occurs in a string. *)
Fixpoint containsByte (s : string) (c : ascii) : bool :=
  match s with
  | EmptyString => false
  | String d rest => Ascii.eqb d c || containsByte rest c
  end.

(** Whether a name starts with a dot, and whether it ends with two. *)
Definition startsWithDot (s : string) : bool :=
  match s with
  | String c _ => Ascii.eqb c "."%char
  | EmptyString => false
  end.

Fixpoint endsWithTwoDots (s : string) : bool :=
  match s with
  | EmptyString => false
  | String c rest =>
      match rest with
      | String d EmptyString => Ascii.eqb c "."%char && Ascii.eqb d "."%char
      | _ => endsWithTwoDots rest
      end
  end.

(** "Strip any trailing dot from its target host, and combine it with its
    advertised port as [host:port]." *)
Definition stripTrailingDotHostPort (srv : SRV) : string :=
  strings.TrimSuffix (Target srv) "."%char ++ ":" ++ fmt.decimal (Z.of_N (Port srv)).

(** The two addresses the program fetches. *)
Definition wellKnownURL (server : string) : string :=
  "https://" ++ server ++ "/.well-known/matrix/server".

Definition versionURL (target : string) : string :=
  "https://" ++ target ++ "/_matrix/federation/v1/version".

(** The well-known step of the resolver gives no target: network error,
    status other than 200, decoding error, or empty [m.server]. *)
Definition wellKnownFails {W : Type} (env : Env W) (got : result Response) : Prop :=
  match got with
  | Failure _ => True
  | Success resp =>
      StatusCode resp <> StatusOK
      \/ snd (json_Decode_server env (Body resp)) <> None
      \/ fst (json_Decode_server env (Body resp)) = ""
  end.

(** One line of a room's status list. *)
Definition statusLine (entry : string * string) : string :=
  fst entry ++ " - " ++ snd entry.

(** The classification the sweep applies to a status. *)
Definition isFailed (entry : string * string) : bool :=
  strings.HasPrefix (snd entry) "Failed".

(** The description of a room that prefixes its report. *)
Definition roomDescription (roomAlias roomTitle roomID : string) : string :=
  roomAlias ++ " - " ++ roomTitle ++ " ( " ++ roomID ++ " )".

(** The message the room loop sends for a room, from its failure list, and
    the text it prints from its status list. *)
Definition reportText (description : string) (failedServers : list string) : string :=
  if (0 <? length failedServers)%nat
  then "Failed servers in room " ++ description ++ ":" ++ LF
       ++ strings.Join failedServers LF
  else "All Servers in room " ++ description ++ " are OK".

Definition fullStatusText (description : string) (serverStatus : list string) : string :=
  "Server statuses in room " ++ description ++ ":" ++ LF
  ++ strings.Join serverStatus LF.

(** The statuses a check can end in when the resolver raises no error. *)
Definition okOrUnreachable (status : string) : Prop :=
  status = "OK" \/ status = "Failed (Unreachable)".

(** The actions of resolving and probing: GETs, SRV lookups and console
    lines. *)
Definition probing (a : Action) : bool :=
  match a with
  | HttpGet _ _ | LookupSRV _ _ _ | Print _ => true
  | _ => false
  end.

(** The classification in the specification's words: anything but ["OK"]. *)
Definition notOK (entry : string * string) : bool := negb (snd entry =? "OK").

(** The actions the body of the room loop may perform for a room: anything
    but listing the rooms, sleeping, or asking the client about another
    room. *)
Definition withinRoom (room : string) (a : Action) : bool :=
  match a with
  | JoinedMembers r | StateEvent r _ _ => (r =? room)%string
  | JoinedRooms | Sleep _ => false
  | _ => true
  end.

(** Whether an action asks the Matrix client about a given room. *)
Definition touchesRoom (room : string) (a : Action) : bool :=
  match a with
  | JoinedMembers r | StateEvent r _ _ => (r =? room)%string
  | _ => false
  end.

(** ** A small world to run the program in *)

Module Demo.

Definition dq : string := String (ascii_of_nat 34) EmptyString.

(** The body [{"m.server":"matrix.delegated.org:443"}]. *)
Definition wellKnownBody : string :=
  "{" ++ dq ++ "m.server" ++ dq ++ ":" ++ dq ++ "matrix.delegated.org:443" ++ dq ++ "}".

(** The body [{"errcode":"M_UNRECOGNIZED"}] of an error response. *)
Definition errorBody : string :=
  "{" ++ dq ++ "errcode" ++ dq ++ ":" ++ dq ++ "M_UNRECOGNIZED" ++ dq ++ "}".

Definition config : Config := {|
  ServerName := "https://x";
  Username := "@monitor:x";
  Password := "secret";
  LogRoom := "!log:x";
  Interval := 60
|}.

(** The state of the world: how many calls it has answered. *)
Definition World : Type := nat.

Definition get (timeout : option Duration) (url : string) (w : World)
  : result Response * World :=
  (if url =? "https://delegated.org/.well-known/matrix/server" then
     Success {| StatusCode := 200; Body := wellKnownBody |}
   else if url =? "https://matrix.delegated.org:443/_matrix/federation/v1/version" then
     Success {| StatusCode := 200; Body := "{}" |}
   else if url =? "https://matrix.good.org:8448/_matrix/federation/v1/version" then
     Success {| StatusCode := 404; Body := errorBody |}
   else if url =? "https://html.org:8448/_matrix/federation/v1/version" then
     Success {| StatusCode := 200; Body := "<html></html>" |}
   else Failure "connection refused",
   S w).

Definition lookupSRV (service proto name : string) (w : World)
  : (list SRV * error) * World :=
  (if name =? "good.org" then
     ([ {| Target := "matrix.good.org."; Port := 8448; Priority := 10; Weight := 5 |};
        {| Target := "backup.good.org."; Port := 443; Priority := 20; Weight := 5 |} ],
      None)
   else if name =? "dotted.org" then
     ([ {| Target := ".matrix.dotted.org."; Port := 8448; Priority := 10; Weight := 5 |} ],
      None)
   else if name =? "partial.org" then
     ([ {| Target := "matrix.partial.org."; Port := 8448; Priority := 10; Weight := 5 |} ],
      Some "SRV target is invalid")
   else ([], Some "no such host"),
   S w).

Definition decodeServer (body : string) : string * error :=
  if body =? wellKnownBody then ("matrix.delegated.org:443", None)
  else ("", Some "invalid character").

Definition decodeObject (body : string) : error :=
  if (body =? "{}") || (body =? errorBody) || (body =? wellKnownBody) then None
  else Some "invalid character".

Definition joinedRooms (w : World) : result (list string) * World :=
  (Success ["!log:x"; "!a:x"], S w).

Definition joinedMembers (roomID : string) (w : World)
  : result (list string) * World :=
  (if roomID =? "!a:x" then Success ["u1:good.org"; "u2:bad.org"]
   else if roomID =? "!b:x" then Success ["alice"]
   else if roomID =? "!c:x" then Success ["@u1:bad.org"; "@u2:bad.org"]
   else if roomID =? "!d:x" then Success ["@u1:good.org"; "@u2:delegated.org"]
   else Failure "M_FORBIDDEN",
   S w).

Definition stateEvent (roomID eventType stateKey : string) (w : World)
  : (string * error) * World :=
  (if eventType =? "m.room.name" then ("Room", None) else ("", Some "M_NOT_FOUND"), S w).

Definition sendText (roomID text : string) (w : World) : error * World :=
  (None, S w).

Definition env : Env World := {|
  http_Get := get;
  net_LookupSRV := lookupSRV;
  json_Decode_server := decodeServer;
  json_Decode_object := decodeObject;
  client_JoinedRooms := joinedRooms;
  client_JoinedMembers := joinedMembers;
  client_StateEvent := stateEvent;
  client_SendText := sendText
|}.

End Demo.

(** ** Further vocabulary for the properties *)

(** The part of a string before its first colon; the whole string when it has
    none. *)
Fixpoint beforeFirstColon (s : string) : string :=
  match s with
  | EmptyString => EmptyString
  | String c rest =>
      if Ascii.eqb c ":"%char then EmptyString else String c (beforeFirstColon rest)
  end.

(** Whether a name ends with a dot, and whether it is made of dots only. *)
Fixpoint endsWithDot (s : string) : bool :=
  match s with
  | EmptyString => false
  | String c EmptyString => Ascii.eqb c "."%char
  | String _ rest => endsWithDot rest
  end.

Fixpoint allDots (s : string) : bool :=
  match s with
  | EmptyString => true
  | String c rest => Ascii.eqb c "."%char && allDots rest
  end.

(** [text] holds [piece] somewhere inside. *)
Definition containsText (text piece : string) : Prop :=
  exists before after : string, text = before ++ piece ++ after.

(** Classes of actions, for counting. *)
Definition isJoinedRooms (a : Action) : bool :=
  match a with JoinedRooms => true | _ => false end.

Definition isSleep (a : Action) : bool :=
  match a with Sleep _ => true | _ => false end.

Definition isWellKnownGet (a : Action) : bool :=
  match a with HttpGet None _ => true | _ => false end.

Definition isProbeGet (a : Action) : bool :=
  match a with HttpGet (Some _) _ => true | _ => false end.

(** The duration of the pause between two turns of the loop. *)
Definition pause (config : Config) : Duration :=
  wrap64 (wrap64 (Interval config) * Second)%Z.

(** The checks of the members of a room, one after the other: for each
    member, in the order visited, the domain extracted from its identifier
    and the status [checkServer] returned for that domain, each check made in
    the world the previous one left.  The trace is the checks' traces end to
    end. *)
Fixpoint memberChecks {W : Type} (env : Env W) (joined : list string)
  : IO W (list (string * string)) :=
  match joined with
  | [] => ret []
  | userID :: rest =>
      status <- checkServer env (extractDomain userID) ;;
      others <- memberChecks env rest ;;
      ret ((extractDomain userID, status) :: others)
  end.

(** The shape of a name [net.LookupSRV] hands back with a nil error: the
    root ["."], or a name with no leading dot that does not end in two
    dots. *)
Definition dnsName (s : string) : bool :=
  (s =? ".")%string || (negb (startsWithDot s) && negb (endsWithTwoDots s)).

(** ** Start-up: [loadConfig] and [main] *)

(** What [main] does before the loop, console lines apart. *)
Inductive StartupCall : Type :=
| ReadFile (path : string)
| Login (user password : string)
| SetAccessToken (token : string).

(** A step of [main]: a start-up call, or an action of the kind the loop
    performs. *)
Inductive Step : Type :=
| Startup (c : StartupCall)
| Running (a : Action).

(** The part of the outside world [main] deals with before the loop.
    [yaml.Unmarshal] takes the file's bytes and the present value of the
    global [config] and gives its new value and the error;
    [ParseAndValidate] and [mautrix.NewClient] only inspect their arguments. *)
Record Host (W : Type) : Type := {
  ioutil_ReadFile : string -> W -> result string * W;
  yaml_Unmarshal : string -> Config -> Config * error;
  UserID_ParseAndValidate : string -> error;
  mautrix_NewClient : string -> string -> string -> error;
  (** [client.Login] with a password and a user identifier: the access
      token of the response. *)
  client_Login : string -> string -> W -> result string * W
}.
Arguments ioutil_ReadFile {W} _ _ _.
Arguments yaml_Unmarshal {W} _ _ _.
Arguments UserID_ParseAndValidate {W} _ _.
Arguments mautrix_NewClient {W} _ _ _ _.
Arguments client_Login {W} _ _ _ _.

(** The zero value of [Config], which the global [config] starts with. *)
Definition zeroConfig : Config := {|
  ServerName := "";
  Username := "";
  Password := "";
  LogRoom := "";
  Interval := 0
|}.

(** Computations of [main]: as [IO], with steps for actions. *)
Definition Main (W A : Type) : Type := W -> A * list Step * W.

Definition retM {W A : Type} (a : A) : Main W A := fun w => (a, [], w).

Definition bindM {W A B : Type} (m : Main W A) (k : A -> Main W B) : Main W B :=
  fun w =>
    let '(a, t1, w1) := m w in
    let '(b, t2, w2) := k a w1 in
    (b, (t1 ++ t2)%list, w2).

(** A start-up call that asks the world. *)
Definition startup {W A : Type} (c : StartupCall) (ask : W -> A * W) : Main W A :=
  fun w => let '(x, w1) := ask w in (x, [Startup c], w1).

(** A start-up step the world gives no answer to. *)
Definition note {W : Type} (c : StartupCall) : Main W unit :=
  fun w => (tt, [Startup c], w).

(** A console line. *)
Definition say {W : Type} (text : string) : Main W unit :=
  fun w => (tt, [Running (Print text)], w).

(** A computation of the loop, run inside [main]. *)
Definition lift {W A : Type} (m : IO W A) : Main W A :=
  fun w => let '(a, t, w1) := m w in (a, map Running t, w1).

Declare Scope main_scope.
Delimit Scope main_scope with main.
Notation "x <- m ;; k" := (bindM m (fun x => k))
  (at level 61, m at next level, right associativity) : main_scope.
Notation "' pat <- m ;; k" := (bindM m (fun x => match x with pat => k end))
  (at level 61, pat pattern, m at next level, right associativity) : main_scope.
Notation "m ;; k" := (bindM m (fun _ => k))
  (at level 61, right associativity) : main_scope.

(** The steps and the last world of a run of [main]. *)
Definition steps {W A : Type} (r : A * list Step * W) : list Step := snd (fst r).
Definition world {W A : Type} (r : A * list Step * W) : W := snd r.

(** The actions of the loop's kind among the steps, and the start-up calls
    among them. *)
Fixpoint running (t : list Step) : list Action :=
  match t with
  | [] => []
  | Running a :: rest => a :: running rest
  | Startup _ :: rest => running rest
  end.

Fixpoint startups (t : list Step) : list StartupCall :=
  match t with
  | [] => []
  | Startup c :: rest => c :: startups rest
  | Running _ :: rest => startups rest
  end.

Section Startup.

Context {W : Type}.
Variable host : Host W.
Variable env : Env W.

(** [loadConfig], with the global [config] passed in and handed back. *)
Definition loadConfig (path : string) (config : Config) : Main W (Config * error) :=
  (say ("Loading configuration from: " ++ path ++ LF) ;;
   read <- startup (ReadFile path) (ioutil_ReadFile host path) ;;
   match read with
   | Failure msg => retM (config, Some msg)
   | Success data => retM (yaml_Unmarshal host data config)
   end)%main.

(** [main], its endless loop cut after [turns] turns. *)
Definition main (turns : nat) : Main W unit :=
  (say ("Starting Matrix client..." ++ LF) ;;
   '(config, err) <- loadConfig "config.yaml" zeroConfig ;;
   match err with
   | Some msg => say ("Failed to load configuration: " ++ msg ++ LF)
   | None =>
       say ("Configuration loaded successfully." ++ LF) ;;
       say ("ServerName: " ++ ServerName config ++ ", Username: " ++ Username config
            ++ ", LogRoom: " ++ LogRoom config ++ ", Interval: "
            ++ fmt.decimal (Interval config) ++ " seconds" ++ LF) ;;
       say ("Validating username format..." ++ LF) ;;
       match UserID_ParseAndValidate host (Username config) with
       | Some msg => say ("Invalid username in configuration: " ++ msg ++ LF)
       | None =>
           say ("Username is valid." ++ LF) ;;
           say ("Creating Matrix client..." ++ LF) ;;
           match mautrix_NewClient host (ServerName config) "" "" with
           | Some msg => say ("Failed to create Matrix client: " ++ msg ++ LF)
           | None =>
               say ("Matrix client created." ++ LF) ;;
               say ("Logging in..." ++ LF) ;;
               loginResp <- startup (Login (Username config) (Password config))
                                    (client_Login host (Username config) (Password config)) ;;
               match loginResp with
               | Failure msg => say ("Failed to log in: " ++ msg ++ LF)
               | Success token =>
                   note (SetAccessToken token) ;;
                   say ("Logged in successfully as " ++ Username config ++ LF) ;;
                   lift (runServerCheckLoop env config turns)
               end
           end
       end
   end)%main.

End Startup.

(** The start-up goes through: the file is read, parsed without error into
    [config], the username is valid, the client is created and the login
    answers with [token], leaving the world [w']. *)
Definition startupSucceeds {W : Type} (host : Host W) (w : W)
  (config : Config) (token : string) (w' : W) : Prop :=
  exists (data : string) (w1 : W),
    ioutil_ReadFile host "config.yaml" w = (Success data, w1)
    /\ yaml_Unmarshal host data zeroConfig = (config, None)
    /\ UserID_ParseAndValidate host (Username config) = None
    /\ mautrix_NewClient host (ServerName config) "" "" = None
    /\ client_Login host (Username config) (Password config) w1 = (Success token, w').

(** Two more worlds: one whose homeserver refuses to list the rooms, one
    in which every room has the same single member. *)
Module Worlds.

Definition offline : Env Demo.World := {|
  http_Get := Demo.get;
  net_LookupSRV := Demo.lookupSRV;
  json_Decode_server := Demo.decodeServer;
  json_Decode_object := Demo.decodeObject;
  client_JoinedRooms := fun w => (Failure "M_UNKNOWN_TOKEN", S w);
  client_JoinedMembers := Demo.joinedMembers;
  client_StateEvent := Demo.stateEvent;
  client_SendText := Demo.sendText
|}.

Definition uniform : Env Demo.World := {|
  http_Get := Demo.get;
  net_LookupSRV := Demo.lookupSRV;
  json_Decode_server := Demo.decodeServer;
  json_Decode_object := Demo.decodeObject;
  client_JoinedRooms := Demo.joinedRooms;
  client_JoinedMembers := fun _ w => (Success ["@u:good.org"], S w);
  client_StateEvent := Demo.stateEvent;
  client_SendText := Demo.sendText
|}.

(** A world in which every room is empty. *)
Definition vacant : Env Demo.World := {|
  http_Get := Demo.get;
  net_LookupSRV := Demo.lookupSRV;
  json_Decode_server := Demo.decodeServer;
  json_Decode_object := Demo.decodeObject;
  client_JoinedRooms := Demo.joinedRooms;
  client_JoinedMembers := fun _ w => (Success [], S w);
  client_StateEvent := Demo.stateEvent;
  client_SendText := Demo.sendText
|}.

(** A host on which the start-up goes through, and one without the file. *)
Definition host : Host Demo.World := {|
  ioutil_ReadFile := fun _ w => (Success "servername: https://x", S w);
  yaml_Unmarshal := fun _ _ => (Demo.config, None);
  UserID_ParseAndValidate := fun _ => None;
  mautrix_NewClient := fun _ _ _ => None;
  client_Login := fun _ _ w => (Success "syt_token", S w)
|}.

Definition noFile : Host Demo.World := {|
  ioutil_ReadFile := fun _ w => (Failure "open config.yaml: no such file or directory", S w);
  yaml_Unmarshal := fun _ _ => (Demo.config, None);
  UserID_ParseAndValidate := fun _ => None;
  mautrix_NewClient := fun _ _ _ => None;
  client_Login := fun _ _ w => (Success "syt_token", S w)
|}.

End Worlds.

(** * Properties *)

(** ** The library functions and the program on concrete inputs *)

Example Split_three_pieces :
  strings.Split "@alice:example.org:8448" ":"%char = ["@alice"; "example.org"; "8448"].
Proof. reflexivity. Qed.

Example Split_empty_string : strings.Split "" ":"%char = [""].
Proof. reflexivity. Qed.

Example Split_trailing_separator : strings.Split "alice:" ":"%char = ["alice"; ""].
Proof. reflexivity. Qed.

Example Trim_both_ends : strings.Trim "..matrix.example.org.." "." = "matrix.example.org".
Proof. reflexivity. Qed.

Example Trim_root_name : strings.Trim "." "." = "".
Proof. reflexivity. Qed.

Example TrimSuffix_one_dot : strings.TrimSuffix "matrix.example.org.." "."%char = "matrix.example.org.".
Proof. reflexivity. Qed.

Example Join_lines : strings.Join ["a"; "b"; "c"] ", " = "a, b, c".
Proof. reflexivity. Qed.

Example decimal_port : fmt.decimal 8448 = "8448" /\ fmt.decimal 0 = "0" /\ fmt.decimal (-60) = "-60".
Proof. repeat split; reflexivity. Qed.

(** The scenario of the specification: rooms [!log:x] and [!a:x], members
    [u1:good.org] and [u2:bad.org], [good.org] reachable and [bad.org] not.
    One turn of the loop sends one message, to the log room, naming
    [bad.org] only, and never asks the client about the log room. *)
Example sweep_scenario :
  sent (trace (sweep Demo.env Demo.config 0%nat))
  = [("!log:x",
      "Failed servers in room !a:x - Room ( !a:x ):" ++ LF ++ "bad.org - Failed (Unreachable)")]
  /\ existsb (touchesRoom "!log:x") (trace (sweep Demo.env Demo.config 0%nat)) = false
  /\ calls (trace (sweep Demo.env Demo.config 0%nat))
     = [JoinedRooms;
        StateEvent "!a:x" "m.room.name" "";
        StateEvent "!a:x" "m.room.canonical_alias" "";
        JoinedMembers "!a:x";
        HttpGet None "https://good.org/.well-known/matrix/server";
        LookupSRV "matrix" "tcp" "good.org";
        HttpGet (Some (5 * Second)%Z)
          "https://matrix.good.org:8448/_matrix/federation/v1/version";
        HttpGet None "https://bad.org/.well-known/matrix/server";
        LookupSRV "matrix" "tcp" "bad.org";
        HttpGet (Some (5 * Second)%Z) "https://bad.org:8448/_matrix/federation/v1/version";
        SendText "!log:x"
          ("Failed servers in room !a:x - Room ( !a:x ):" ++ LF
           ++ "bad.org - Failed (Unreachable)");
        Sleep (60 * Second)%Z].
Proof. repeat split; reflexivity. Qed.

(** A reachable target, a target answering with HTML, and a target that
    refuses the connection. *)
Example checkServerOnline_three_targets :
  value (checkServerOnline Demo.env "matrix.delegated.org:443" 0%nat) = true
  /\ value (checkServerOnline Demo.env "html.org:8448" 0%nat) = false
  /\ value (checkServerOnline Demo.env "bad.org:8448" 0%nat) = false.
Proof. repeat split; reflexivity. Qed.

Example runServerCheckLoop_two_turns :
  length (sent (trace (runServerCheckLoop Demo.env Demo.config 2 0%nat))) = 2%nat.
Proof. reflexivity. Qed.

(** ** Running computations *)

Section Running.

Context {W : Type}.

Lemma run_bind {A B : Type} (m : IO W A) (k : A -> IO W B) (w : W) :
  bind m k w =
  (value (k (value (m w)) (final (m w))),
   (trace (m w) ++ trace (k (value (m w)) (final (m w))))%list,
   final (k (value (m w)) (final (m w)))).
Proof.
  unfold bind, value, trace, final.
  destruct (m w) as [[a t1] w1]; simpl.
  destruct (k a w1) as [[b t2] w2]; reflexivity.
Qed.

Lemma run_call {A : Type} (a : Action) (ask : W -> A * W) (w : W) :
  call a ask w = (fst (ask w), [a], snd (ask w)).
Proof. unfold call. destruct (ask w); reflexivity. Qed.

Lemma value_bind {A B : Type} (m : IO W A) (k : A -> IO W B) (w : W) :
  value (bind m k w) = value (k (value (m w)) (final (m w))).
Proof. rewrite run_bind. reflexivity. Qed.

Lemma trace_bind {A B : Type} (m : IO W A) (k : A -> IO W B) (w : W) :
  trace (bind m k w) = (trace (m w) ++ trace (k (value (m w)) (final (m w))))%list.
Proof. rewrite run_bind. reflexivity. Qed.

Lemma final_bind {A B : Type} (m : IO W A) (k : A -> IO W B) (w : W) :
  final (bind m k w) = final (k (value (m w)) (final (m w))).
Proof. rewrite run_bind. reflexivity. Qed.

Lemma trace_call {A : Type} (a : Action) (ask : W -> A * W) (w : W) :
  trace (call a ask w) = [a].
Proof. rewrite run_call. reflexivity. Qed.

Lemma value_call {A : Type} (a : Action) (ask : W -> A * W) (w : W) :
  value (call a ask w) = fst (ask w).
Proof. rewrite run_call. reflexivity. Qed.

Lemma final_call {A : Type} (a : Action) (ask : W -> A * W) (w : W) :
  final (call a ask w) = snd (ask w).
Proof. rewrite run_call. reflexivity. Qed.

Lemma value_triple {A : Type} (a : A) (t : list Action) (w : W) : value (a, t, w) = a.
Proof. reflexivity. Qed.

Lemma trace_triple {A : Type} (a : A) (t : list Action) (w : W) : trace (a, t, w) = t.
Proof. reflexivity. Qed.

Lemma final_triple {A : Type} (a : A) (t : list Action) (w : W) : final (a, t, w) = w.
Proof. reflexivity. Qed.

Lemma triple_eta {A : Type} (r : A * list Action * W) :
  r = (value r, trace r, final r).
Proof. destruct r as [[a t] w]; reflexivity. Qed.

End Running.

Lemma sent_app (t1 t2 : list Action) : sent (t1 ++ t2) = (sent t1 ++ sent t2)%list.
Proof.
  induction t1 as [|a t1 IH]; simpl; [reflexivity|].
  destruct a; simpl; rewrite ?IH; reflexivity.
Qed.

Lemma calls_app (t1 t2 : list Action) : calls (t1 ++ t2) = (calls t1 ++ calls t2)%list.
Proof.
  induction t1 as [|a t1 IH]; simpl; [reflexivity|].
  destruct a; simpl; rewrite ?IH; reflexivity.
Qed.

Lemma printed_app (t1 t2 : list Action) :
  printed (t1 ++ t2) = (printed t1 ++ printed t2)%list.
Proof.
  induction t1 as [|a t1 IH]; simpl; [reflexivity|].
  destruct a; simpl; rewrite ?IH; reflexivity.
Qed.

Lemma probing_sent (t : list Action) : forallb probing t = true -> sent t = [].
Proof.
  induction t as [|a t IH]; simpl; intros H; [reflexivity|].
  apply andb_true_iff in H as [Ha Ht].
  destruct a; simpl in Ha; try discriminate; apply IH, Ht.
Qed.

Lemma probing_withinRoom (room : string) (t : list Action) :
  forallb probing t = true -> forallb (withinRoom room) t = true.
Proof.
  induction t as [|a t IH]; simpl; intros H; [reflexivity|].
  apply andb_true_iff in H as [Ha Ht].
  rewrite (IH Ht), andb_true_r.
  destruct a; simpl in Ha; try discriminate; reflexivity.
Qed.

Lemma withinRoom_touchesRoom (room other : string) (t : list Action) :
  room <> other ->
  forallb (withinRoom room) t = true -> existsb (touchesRoom other) t = false.
Proof.
  intros Hne.
  induction t as [|a t IH]; simpl; intros H; [reflexivity|].
  apply andb_true_iff in H as [Ha Ht].
  rewrite (IH Ht), orb_false_r.
  destruct a; simpl in *; try reflexivity.
  - apply String.eqb_eq in Ha. subst roomID. apply String.eqb_neq, Hne.
  - apply String.eqb_eq in Ha. subst roomID. apply String.eqb_neq, Hne.
Qed.

Lemma isFailed_notOK (entry : string * string) :
  okOrUnreachable (snd entry) -> isFailed entry = notOK entry.
Proof.
  unfold isFailed, notOK. intros [H|H]; rewrite H; reflexivity.
Qed.

Lemma filter_isFailed_notOK (results : list (string * string)) :
  Forall (fun entry => okOrUnreachable (snd entry)) results ->
  filter isFailed results = filter notOK results
  /\ existsb isFailed results = existsb notOK results.
Proof.
  induction 1 as [|entry results Hentry _ [IHf IHe]]; [split; reflexivity|].
  simpl. rewrite (isFailed_notOK _ Hentry), IHf, IHe. split; reflexivity.
Qed.

Lemma filter_nonempty {A : Type} (f : A -> bool) (l : list A) :
  (0 <? length (filter f l))%nat = existsb f l.
Proof.
  induction l as [|x l IH]; [reflexivity|].
  simpl. destruct (f x); [reflexivity|exact IH].
Qed.

Lemma length_append (a b : string) :
  String.length (a ++ b) = (String.length a + String.length b)%nat.
Proof. induction a as [|c a IH]; simpl; [reflexivity|]. rewrite IH. reflexivity. Qed.

Lemma append_cancel_r (a b suffix : string) :
  a ++ suffix = b ++ suffix -> a = b.
Proof.
  revert b. induction a as [|c a IH]; intros b H.
  - destruct b as [|d b]; [reflexivity|].
    exfalso. apply (f_equal String.length) in H.
    simpl in H. rewrite length_append in H. lia.
  - destruct b as [|d b].
    + exfalso. apply (f_equal String.length) in H.
      simpl in H. rewrite length_append in H. lia.
    + simpl in H. inversion H; subst d. f_equal. apply IH. assumption.
Qed.

Lemma failed_lines_NoDup (results : list (string * string)) :
  Forall (fun entry => okOrUnreachable (snd entry)) results ->
  NoDup (map fst results) ->
  NoDup (map statusLine (filter notOK results)).
Proof.
  induction 1 as [|entry results Hentry Hall IH]; intros Hnodup; [constructor|].
  simpl in Hnodup. inversion Hnodup as [|x l Hnotin Hrest]; subst x l.
  simpl. destruct (notOK entry) eqn:Hfailed; [|apply IH, Hrest].
  simpl. constructor; [|apply IH, Hrest].
  intros Hin. apply in_map_iff in Hin as [other [Hline Hother]].
  apply filter_In in Hother as [Hother Hfailed'].
  apply Hnotin. apply in_map_iff. exists other. split; [|exact Hother].
  rewrite Forall_forall in Hall. specialize (Hall other Hother).
  unfold statusLine in Hline.
  assert (Hs : snd entry = "Failed (Unreachable)").
  { destruct Hentry as [H|H]; [|exact H].
    unfold notOK in Hfailed. rewrite H in Hfailed. discriminate. }
  assert (Hs' : snd other = "Failed (Unreachable)").
  { destruct Hall as [H|H]; [|exact H].
    unfold notOK in Hfailed'. rewrite H in Hfailed'. discriminate. }
  rewrite Hs, Hs' in Hline.
  apply append_cancel_r in Hline. exact Hline.
Qed.

(** ** The string helpers *)

Lemma Split_nonempty (s : string) (sep : ascii) : strings.Split s sep <> [].
Proof.
  destruct s as [|c rest]; simpl; [discriminate|].
  destruct (Ascii.eqb c sep); [discriminate|].
  destruct (strings.Split rest sep); discriminate.
Qed.

Lemma Split_without_sep (s : string) (sep : ascii) :
  containsByte s sep = false -> strings.Split s sep = [s].
Proof.
  induction s as [|c rest IH]; simpl; intros H; [reflexivity|].
  apply orb_false_iff in H as [Hc Hrest].
  rewrite Hc, (IH Hrest). reflexivity.
Qed.

Lemma Split_at_first_sep (a b : string) (sep : ascii) :
  containsByte a sep = false ->
  strings.Split (a ++ String sep b) sep = a :: strings.Split b sep.
Proof.
  induction a as [|c rest IH]; simpl; intros H.
  - rewrite Ascii.eqb_refl. reflexivity.
  - apply orb_false_iff in H as [Hc Hrest].
    rewrite Hc, (IH Hrest). reflexivity.
Qed.

Lemma afterFirstColon_at_first_colon (a b : string) :
  containsByte a ":"%char = false ->
  afterFirstColon (a ++ String ":"%char b) = b.
Proof.
  induction a as [|c rest IH]; simpl; intros H; [reflexivity|].
  apply orb_false_iff in H as [Hc Hrest].
  rewrite Hc. apply IH, Hrest.
Qed.

(** Without a colon the extracted domain is empty. *)
Lemma extractDomain_without_colon (userID : string) :
  containsByte userID ":"%char = false -> extractDomain userID = "".
Proof.
  intros H. unfold extractDomain. rewrite (Split_without_sep _ _ H). reflexivity.
Qed.

(** With exactly one colon the extracted domain is all that follows it. *)
Lemma extractDomain_one_colon (a b : string) :
  containsByte a ":"%char = false ->
  containsByte b ":"%char = false ->
  extractDomain (a ++ String ":"%char b) = b
  /\ afterFirstColon (a ++ String ":"%char b) = b.
Proof.
  intros Ha Hb. split; [|apply afterFirstColon_at_first_colon, Ha].
  unfold extractDomain.
  rewrite (Split_at_first_sep _ _ _ Ha), (Split_without_sep _ _ Hb). reflexivity.
Qed.

(** With a second colon the extracted domain stops there, while the
    substring after the first colon goes on. *)
Lemma extractDomain_two_colons (a b c : string) :
  containsByte a ":"%char = false ->
  containsByte b ":"%char = false ->
  extractDomain (a ++ String ":"%char (b ++ String ":"%char c)) = b
  /\ afterFirstColon (a ++ String ":"%char (b ++ String ":"%char c))
     = b ++ String ":"%char c.
Proof.
  intros Ha Hb. split; [|apply afterFirstColon_at_first_colon, Ha].
  unfold extractDomain.
  rewrite (Split_at_first_sep _ _ _ Ha), (Split_at_first_sep _ _ _ Hb).
  pose proof (Split_nonempty c ":"%char) as Hne.
  destruct (strings.Split c ":"%char); [contradiction|reflexivity].
Qed.

(** C4, the code at an identifier with a port in its server name: the
    extracted domain is the piece between the first and the second colon,
    not the whole substring after the first colon; on the two identifiers of
    the specification the two agree. *)
Theorem extractDomain_stops_at_second_colon :
  extractDomain "@alice:example.org:8448" = "example.org"
  /\ afterFirstColon "@alice:example.org:8448" = "example.org:8448"
  /\ extractDomain "alice:example.org" = "example.org"
  /\ extractDomain "alice" = "".
Proof. repeat split; reflexivity. Qed.

Lemma TrimSuffix_empty (s : string) (c : ascii) :
  strings.TrimSuffix s c = "" -> s = "" \/ s = String c "".
Proof.
  destruct s as [|d rest]; simpl; [left; reflexivity|].
  destruct rest as [|e rest'].
  - destruct (Ascii.eqb_spec d c) as [->|_]; [right; reflexivity|discriminate].
  - discriminate.
Qed.

Lemma TrimRight_dot_TrimSuffix (s : string) :
  endsWithTwoDots s = false ->
  strings.TrimRight s "." = strings.TrimSuffix s "."%char.
Proof.
  induction s as [|c rest IH]; [reflexivity|].
  intros H.
  destruct rest as [|d rest'].
  - simpl. rewrite orb_false_r. destruct (Ascii.eqb c "."); reflexivity.
  - assert (Hrest : endsWithTwoDots (String d rest') = false).
    { destruct rest' as [|e rest'']; [reflexivity|].
      simpl in H. destruct rest''; exact H. }
    specialize (IH Hrest).
    change (strings.TrimRight (String c (String d rest')) ".")
      with (match strings.TrimRight (String d rest') "." with
            | EmptyString =>
                if strings.inCutset c "." then EmptyString else String c EmptyString
            | kept => String c kept
            end).
    change (strings.TrimSuffix (String c (String d rest')) "."%char)
      with (String c (strings.TrimSuffix (String d rest') "."%char)).
    rewrite IH.
    destruct (strings.TrimSuffix (String d rest') "."%char) eqn:Hsuf; [|reflexivity].
    apply TrimSuffix_empty in Hsuf as [Hsuf|Hsuf]; [discriminate|].
    inversion Hsuf; subst d rest'.
    simpl in H. simpl. rewrite orb_false_r.
    rewrite andb_true_r in H. rewrite H. reflexivity.
Qed.

(** On a name with no leading dot that does not end with two dots, which is
    how DNS writes a target, removing all leading and trailing dots is
    removing the one trailing dot. *)
Lemma Trim_dot_TrimSuffix (s : string) :
  startsWithDot s = false ->
  endsWithTwoDots s = false ->
  strings.Trim s "." = strings.TrimSuffix s "."%char.
Proof.
  intros Hstart Hend. unfold strings.Trim.
  assert (Hleft : strings.TrimLeft s "." = s).
  { destruct s as [|c rest]; [reflexivity|].
    simpl in *. rewrite Hstart. reflexivity. }
  rewrite Hleft. apply TrimRight_dot_TrimSuffix, Hend.
Qed.

Lemma dnsName_Trim (s : string) :
  dnsName s = true -> strings.Trim s "." = strings.TrimSuffix s "."%char.
Proof.
  unfold dnsName. intros H. apply orb_true_iff in H as [Hroot|Hname].
  - apply String.eqb_eq in Hroot. subst s. reflexivity.
  - apply andb_true_iff in Hname as [Hstart Hend].
    apply negb_true_iff in Hstart. apply negb_true_iff in Hend.
    apply Trim_dot_TrimSuffix; assumption.
Qed.

(** ** The resolver *)

Section Resolver.

Context {W : Type}.
Variable env : Env W.

(** Once the well-known step has given no target, the resolver is the SRV
    lookup followed by the default. *)
Lemma resolve_after_well_known (server : string) (w w1 : W) (got : result Response) :
  http_Get env None (wellKnownURL server) w = (got, w1) ->
  wellKnownFails env got ->
  resolveMatrixServer env server w =
  (match net_LookupSRV env "matrix" "tcp" server w1 with
   | ((srv :: _, None), _) =>
       (strings.Trim (Target srv) "." ++ ":" ++ fmt.decimal (Z.of_N (Port srv)), nil_error)
   | _ => (server ++ ":8448", nil_error)
   end,
   [HttpGet None (wellKnownURL server); LookupSRV "matrix" "tcp" server],
   snd (net_LookupSRV env "matrix" "tcp" server w1)).
Proof.
  intros Hget Hfail.
  unfold resolveMatrixServer, wellKnownURL in *.
  rewrite run_bind, run_call, Hget; unfold value, trace, final; simpl.
  assert (Hnone :
    match got with
    | Success resp =>
        if (StatusCode resp =? StatusOK)%Z then
          let '(Server, err) := json_Decode_server env (Body resp) in
          if isNil err && negb (Server =? "")%string then Some Server else None
        else None
    | Failure _ => None
    end = None).
  { destruct got as [resp|msg]; [|reflexivity].
    simpl in Hfail.
    destruct (Z.eqb_spec (StatusCode resp) StatusOK) as [Hs|Hs]; [|reflexivity].
    destruct (json_Decode_server env (Body resp)) as [Server err]; simpl in Hfail.
    destruct Hfail as [Hf|[Hf|Hf]]; [contradiction| |].
    - destruct err; [reflexivity|contradiction].
    - subst Server. destruct err; reflexivity. }
  rewrite Hnone.
  rewrite run_bind, run_call; unfold value, trace, final; simpl.
  destruct (net_LookupSRV env "matrix" "tcp" server w1) as [[recs err] w2]; simpl.
  destruct err as [msg|]; destruct recs as [|srv rest]; reflexivity.
Qed.

(** The resolver's error is always nil. *)
Lemma resolve_error_nil (server : string) (w : W) :
  snd (value (resolveMatrixServer env server w)) = None.
Proof.
  unfold resolveMatrixServer.
  rewrite run_bind, run_call; unfold value, trace, final; simpl.
  match goal with
  | |- context [match ?d with Some _ => _ | None => _ end] => destruct d
  end; [reflexivity|].
  rewrite run_bind, run_call; unfold value, trace, final; simpl.
  destruct (net_LookupSRV env "matrix" "tcp" server _) as [[recs err] w2]; simpl.
  destruct err as [msg|]; destruct recs as [|srv rest]; reflexivity.
Qed.

(** [checkServer] in terms of the resolver's target and the probe. *)
Lemma checkServer_run (server : string) (w : W) :
  let r := resolveMatrixServer env server w in
  let p := checkServerOnline env (fst (value r)) (final r) in
  checkServer env server w =
  (if value p then "OK" else "Failed (Unreachable)", (trace r ++ trace p)%list, final p).
Proof.
  intros r p. subst p r. unfold checkServer.
  rewrite run_bind.
  pose proof (resolve_error_nil server w) as Hnil.
  destruct (resolveMatrixServer env server w) as [[[target err] tr] w1].
  unfold value, trace, final in *; simpl in *. subst err.
  rewrite run_bind; unfold value, trace, final.
  destruct (checkServerOnline env target w1) as [[online tp] w2]; simpl.
  destruct online; simpl; rewrite app_nil_r; reflexivity.
Qed.

Lemma checkServer_value (server : string) (w : W) :
  value (checkServer env server w) =
  if value (checkServerOnline env
              (fst (value (resolveMatrixServer env server w)))
              (final (resolveMatrixServer env server w)))
  then "OK" else "Failed (Unreachable)".
Proof. rewrite checkServer_run. reflexivity. Qed.

Lemma checkServer_trace (server : string) (w : W) :
  trace (checkServer env server w) =
  (trace (resolveMatrixServer env server w)
   ++ trace (checkServerOnline env
               (fst (value (resolveMatrixServer env server w)))
               (final (resolveMatrixServer env server w))))%list.
Proof. rewrite checkServer_run. reflexivity. Qed.

(** The actions of the resolver: the GET, then at most the SRV lookup. *)
Lemma resolve_trace (server : string) (w : W) :
  trace (resolveMatrixServer env server w) = [HttpGet None (wellKnownURL server)]
  \/ trace (resolveMatrixServer env server w)
     = [HttpGet None (wellKnownURL server); LookupSRV "matrix" "tcp" server].
Proof.
  unfold resolveMatrixServer, wellKnownURL.
  rewrite run_bind, run_call; unfold value, trace, final; simpl.
  match goal with
  | |- context [match ?d with Some _ => _ | None => _ end] => destruct d
  end; [left; reflexivity|].
  right.
  rewrite run_bind, run_call; unfold value, trace, final; simpl.
  destruct (net_LookupSRV env "matrix" "tcp" server _) as [[recs err] w2]; simpl.
  destruct err as [msg|]; destruct recs as [|srv rest]; reflexivity.
Qed.

(** The actions of the probe: the GET, then at most a console line. *)
Lemma checkServerOnline_trace (target : string) (w : W) :
  exists lines : list Action,
    trace (checkServerOnline env target w)
    = HttpGet (Some (5 * Second)%Z) (versionURL target) :: lines
    /\ (lines = [] \/ exists text, lines = [Print text]).
Proof.
  unfold checkServerOnline, versionURL.
  rewrite run_bind, run_call; unfold value, trace, final; simpl.
  destruct (http_Get env _ _ w) as [[resp|msg] w1]; simpl.
  - destruct (json_Decode_object env (Body resp)) as [msg|]; simpl.
    + eexists; split; [reflexivity|]. right; eexists; reflexivity.
    + eexists; split; [reflexivity|]. left; reflexivity.
  - eexists; split; [reflexivity|]. right; eexists; reflexivity.
Qed.

(** What a check of one server amounts to: a status that is ["OK"] or
    ["Failed (Unreachable)"], and a trace that starts with the well-known GET,
    holds the probe of some target and consists of probing actions only. *)
Lemma checkServer_shape (server : string) (w : W) :
  okOrUnreachable (value (checkServer env server w))
  /\ (exists rest, trace (checkServer env server w)
                   = HttpGet None (wellKnownURL server) :: rest)
  /\ (exists target,
        In (HttpGet (Some (5 * Second)%Z) (versionURL target))
           (trace (checkServer env server w)))
  /\ forallb probing (trace (checkServer env server w)) = true.
Proof.
  rewrite checkServer_value, checkServer_trace.
  destruct (checkServerOnline_trace
              (fst (value (resolveMatrixServer env server w)))
              (final (resolveMatrixServer env server w)))
    as [lines [Hp Hlines]].
  rewrite Hp.
  split; [|split; [|split]].
  - destruct (value (checkServerOnline env _ _)); [left|right]; reflexivity.
  - destruct (resolve_trace server w) as [Hr|Hr]; rewrite Hr; eexists; reflexivity.
  - eexists. apply in_or_app. right. left; reflexivity.
  - rewrite forallb_app.
    destruct (resolve_trace server w) as [Hr|Hr]; rewrite Hr;
      destruct Hlines as [->|[text ->]]; reflexivity.
Qed.

(** C1. When the GET of the well-known address answers with status 200 and a
    body that decodes without error to a non-empty [m.server], the resolver
    returns that very string with a nil error; the GET is the only action it
    performs, so neither the SRV lookup nor the default is reached, and the
    world is left as the GET left it. *)
Theorem resolve_well_known (server target : string) (resp : Response) (w w1 : W) :
  http_Get env None (wellKnownURL server) w = (Success resp, w1) ->
  StatusCode resp = StatusOK ->
  json_Decode_server env (Body resp) = (target, None) ->
  target <> "" ->
  resolveMatrixServer env server w =
  ((target, nil_error), [HttpGet None (wellKnownURL server)], w1).
Proof.
  intros Hget Hstatus Hdecode Hne.
  unfold resolveMatrixServer, wellKnownURL in *.
  rewrite run_bind, run_call, Hget; unfold value, trace, final; simpl.
  rewrite Hstatus, Z.eqb_refl, Hdecode; simpl.
  destruct (String.eqb_spec target "") as [He|_]; [contradiction|].
  reflexivity.
Qed.

(** C2, as the code has it.  When the well-known step gives no target and
    the SRV lookup answers with a nil error and at least one record, the
    resolver returns the first record's target with its one trailing dot, if
    any, removed, a colon and the record's port; it performs the GET and the
    lookup and nothing else.  The target is a name as [net.LookupSRV] hands
    one back with a nil error.  Records handed back together with an error
    are not used. *)
Theorem resolve_srv_first_record
  (server : string) (got : result Response) (srv : SRV) (others : list SRV) (w w1 w2 : W) :
  http_Get env None (wellKnownURL server) w = (got, w1) ->
  wellKnownFails env got ->
  net_LookupSRV env "matrix" "tcp" server w1 = ((srv :: others, None), w2) ->
  dnsName (Target srv) = true ->
  resolveMatrixServer env server w =
  ((stripTrailingDotHostPort srv, nil_error),
   [HttpGet None (wellKnownURL server); LookupSRV "matrix" "tcp" server],
   w2).
Proof.
  intros Hget Hfail Hsrv Hname.
  rewrite (resolve_after_well_known server w w1 got Hget Hfail), Hsrv.
  unfold stripTrailingDotHostPort. rewrite (dnsName_Trim _ Hname).
  reflexivity.
Qed.

(** C3. The resolver's error is nil for every server and every world; when
    the well-known step gives no target and the SRV lookup fails or is empty
    it returns [server:8448]; and [checkServer] therefore answers ["OK"] or
    ["Failed (Unreachable)"], never a delegation failure. *)
Theorem resolve_never_fails (server : string) (w : W) :
  snd (value (resolveMatrixServer env server w)) = nil_error
  /\ (forall (got : result Response) (recs : list SRV) (err : error) (w1 w2 : W),
        http_Get env None (wellKnownURL server) w = (got, w1) ->
        wellKnownFails env got ->
        net_LookupSRV env "matrix" "tcp" server w1 = ((recs, err), w2) ->
        err <> None \/ recs = [] ->
        resolveMatrixServer env server w =
        ((server ++ ":8448", nil_error),
         [HttpGet None (wellKnownURL server); LookupSRV "matrix" "tcp" server],
         w2))
  /\ (value (checkServer env server w) = "OK"
      \/ value (checkServer env server w) = "Failed (Unreachable)")
  /\ (forall msg : string,
        value (checkServer env server w) <> "Failed (Delegation Failed: " ++ msg ++ ")").
Proof.
  split; [apply resolve_error_nil|].
  split.
  - intros got recs err w1 w2 Hget Hfail Hsrv Hnone.
    rewrite (resolve_after_well_known server w w1 got Hget Hfail), Hsrv.
    destruct Hnone as [Herr|Hrecs].
    + destruct err as [msg|]; [|contradiction]. destruct recs; reflexivity.
    + subst recs. destruct err; reflexivity.
  - rewrite checkServer_run; unfold value at 1 3 5; simpl.
    destruct (value (checkServerOnline env _ _)).
    + split; [left; reflexivity|]. intros msg H; discriminate H.
    + split; [right; reflexivity|]. intros msg H; discriminate H.
Qed.

(** ** The probe *)

Lemma checkServerOnline_probe (target : string) (w : W) (resp : Response) (w1 : W) :
  http_Get env (Some (5 * Second)%Z) (versionURL target) w = (Success resp, w1) ->
  json_Decode_object env (Body resp) = None ->
  value (checkServerOnline env target w) = true.
Proof.
  intros Hget Hdecode.
  unfold checkServerOnline, versionURL in *.
  rewrite run_bind, run_call, Hget; unfold value, trace, final; simpl.
  rewrite Hdecode. reflexivity.
Qed.

(** C6. The probe performs exactly one call: a GET of
    [https://{target}/_matrix/federation/v1/version] with a timeout of five
    seconds; it leaves the world as that GET left it; and it returns [true]
    exactly when the GET gave a response whose body decodes, as an object,
    without error.  A failed GET (connection error, timeout) and a decoding
    error both give [false]. *)
Theorem checkServerOnline_spec (target : string) (w : W) :
  let answer := http_Get env (Some (5 * Second)%Z) (versionURL target) w in
  let r := checkServerOnline env target w in
  calls (trace r) = [HttpGet (Some (5 * Second)%Z) (versionURL target)]
  /\ final r = snd answer
  /\ (value r = true <->
      exists resp : Response,
        fst answer = Success resp /\ json_Decode_object env (Body resp) = None)
  /\ ((forall msg, fst answer = Failure msg -> value r = false)
      /\ (forall resp msg, fst answer = Success resp ->
            json_Decode_object env (Body resp) = Some msg -> value r = false)).
Proof.
  intros answer r. subst answer r.
  unfold checkServerOnline, versionURL.
  rewrite run_bind, run_call; unfold value, trace, final; simpl.
  destruct (http_Get env _ _ w) as [[resp|msg] w1]; simpl.
  - destruct (json_Decode_object env (Body resp)) as [msg|] eqn:Hd; simpl.
    + repeat split; try discriminate.
      * intros [resp' [Heq Hnone]]. inversion Heq; subst resp'. congruence.
    + repeat split; try discriminate.
      * intros _. exists resp. split; [reflexivity|assumption].
      * intros resp' msg Heq Hsome. inversion Heq; subst resp'. congruence.
  - repeat split; try discriminate.
    intros [resp [Heq _]]. discriminate Heq.
Qed.

(** C10. The probe never looks at the status code: whatever [StatusCode] the
    response carries, a body that decodes as an object without error makes
    [checkServerOnline] return [true], and the server whose resolved target
    answered so is classified ["OK"]. *)
Theorem status_code_ignored
  (server target : string) (err : error) (tr : list Action) (resp : Response) (w w1 w2 : W) :
  resolveMatrixServer env server w = ((target, err), tr, w1) ->
  http_Get env (Some (5 * Second)%Z) (versionURL target) w1 = (Success resp, w2) ->
  json_Decode_object env (Body resp) = None ->
  value (checkServerOnline env target w1) = true
  /\ value (checkServer env server w) = "OK".
Proof.
  intros Hres Hget Hdecode.
  assert (Hprobe : value (checkServerOnline env target w1) = true).
  { apply (checkServerOnline_probe target w1 resp w2 Hget Hdecode). }
  split; [exact Hprobe|].
  rewrite checkServer_run, Hres.
  unfold value, final in *; cbn [fst snd] in *.
  rewrite Hprobe. reflexivity.
Qed.

End Resolver.

(** ** The room sweep *)

Section Sweep.

Context {W : Type}.
Variable env : Env W.
Variable config : Config.

Lemma checkMembers_cons (userID : string) (rest serverStatus failedServers : list string) (w : W) :
  let c := checkServer env (extractDomain userID) w in
  let line := extractDomain userID ++ " - " ++ value c in
  let r := checkMembers env rest (append serverStatus line)
             (if strings.HasPrefix (value c) "Failed"
              then append failedServers line else failedServers)
             (final c) in
  checkMembers env (userID :: rest) serverStatus failedServers w
  = (value r, (trace c ++ trace r)%list, final r).
Proof.
  intros c line r. subst c line r.
  change (checkMembers env (userID :: rest) serverStatus failedServers w)
    with (bind (checkServer env (extractDomain userID))
               (fun status =>
                  checkMembers env rest
                    (append serverStatus (extractDomain userID ++ " - " ++ status))
                    (if strings.HasPrefix status "Failed"
                     then append failedServers (extractDomain userID ++ " - " ++ status)
                     else failedServers)) w).
  rewrite run_bind. reflexivity.
Qed.

(** The member loop: one entry per member, in the order visited; every entry
    goes to the status list, the failed ones also to the failure list. *)
Lemma checkMembers_spec (joined serverStatus failedServers : list string) (w : W) :
  exists results : list (string * string),
    value (checkMembers env joined serverStatus failedServers w)
    = ((serverStatus ++ map statusLine results)%list,
       (failedServers ++ map statusLine (filter isFailed results))%list)
    /\ map fst results = map extractDomain joined
    /\ Forall (fun entry => okOrUnreachable (snd entry)) results
    /\ forallb probing (trace (checkMembers env joined serverStatus failedServers w)) = true.
Proof.
  revert serverStatus failedServers w.
  induction joined as [|userID rest IH]; intros serverStatus failedServers w.
  - exists []. simpl. rewrite !app_nil_r. repeat split. constructor.
  - rewrite checkMembers_cons.
    destruct (checkServer_shape env (extractDomain userID) w)
      as [Hstatus [_ [_ Hprobing]]].
    set (status := value (checkServer env (extractDomain userID) w)) in *.
    destruct (IH (append serverStatus (extractDomain userID ++ " - " ++ status))
                 (if strings.HasPrefix status "Failed"
                  then append failedServers (extractDomain userID ++ " - " ++ status)
                  else failedServers)
                 (final (checkServer env (extractDomain userID) w)))
      as [results [Hvalue [Hdomains [Hall Htrace]]]].
    exists ((extractDomain userID, status) :: results).
    subst status.
    unfold value, trace, final in *; cbn [fst snd] in *.
    set (status := fst (fst (checkServer env (extractDomain userID) w))) in *.
    rewrite Hvalue, forallb_app, Hprobing, Htrace.
    split; [|split; [|split]].
    + unfold append. cbn [map filter].
      change (isFailed (extractDomain userID, status))
        with (strings.HasPrefix status "Failed").
      change (statusLine (extractDomain userID, status))
        with (extractDomain userID ++ " - " ++ status).
      destruct (strings.HasPrefix status "Failed");
        cbn [map]; rewrite <- ?app_assoc; reflexivity.
    + cbn [map fst]. rewrite Hdomains. reflexivity.
    + constructor; [exact Hstatus|exact Hall].
    + reflexivity.
Qed.

(** The actions of [getRoomDetails]: two state events of the room, then at
    most a console line. *)
Lemma getRoomDetails_trace (roomID : string) (w : W) :
  exists lines : list Action,
    trace (getRoomDetails env roomID w)
    = StateEvent roomID "m.room.name" ""
      :: StateEvent roomID "m.room.canonical_alias" "" :: lines
    /\ (lines = [] \/ exists text, lines = [Print text]).
Proof.
  unfold getRoomDetails.
  rewrite run_bind, run_call; unfold value, trace, final; cbn [fst snd].
  destruct (client_StateEvent env roomID "m.room.name" "" w) as [[Name err] w1];
    cbn [fst snd].
  rewrite run_bind, run_call; unfold value, trace, final; cbn [fst snd].
  destruct (client_StateEvent env roomID "m.room.canonical_alias" "" w1)
    as [[Alias err'] w2]; cbn [fst snd].
  destruct (negb (isNil err') || (Alias =? "")%string).
  - eexists; split; [reflexivity|]. right; eexists; reflexivity.
  - eexists; split; [reflexivity|]. left; reflexivity.
Qed.

Lemma getRoomDetails_withinRoom (roomID : string) (w : W) :
  forallb (withinRoom roomID) (trace (getRoomDetails env roomID w)) = true
  /\ sent (trace (getRoomDetails env roomID w)) = [].
Proof.
  destruct (getRoomDetails_trace roomID w) as [lines [-> Hlines]].
  cbn [forallb withinRoom sent]. rewrite String.eqb_refl.
  destruct Hlines as [->|[text ->]]; split; reflexivity.
Qed.

(** The body of the room loop for a room that is not the log room and whose
    members could be fetched. *)
Lemma checkRoom_run (roomID : string) (joined : list string) (w : W) :
  let d := getRoomDetails env roomID w in
  let description := roomDescription (fst (value d)) (snd (value d)) roomID in
  let members := client_JoinedMembers env roomID (final d) in
  let cm := checkMembers env joined [] [] (snd members) in
  roomID <> LogRoom config ->
  fst members = Success joined ->
  trace (checkRoom env config roomID w)
  = (trace d
     ++ Print ("Testing servers in room: " ++ description ++ LF)
        :: JoinedMembers roomID
        :: trace cm
     ++ [Print (fullStatusText description (fst (value cm)) ++ LF);
         SendText (LogRoom config) (reportText description (snd (value cm)))])%list.
Proof.
  intros d description members cm Hne Hmembers.
  subst d description members cm.
  unfold checkRoom.
  apply String.eqb_neq in Hne. rewrite Hne.
  rewrite run_bind.
  destruct (getRoomDetails env roomID w) as [[[roomAlias roomTitle] td] wd].
  unfold value, trace, final in *; cbn [fst snd] in *.
  rewrite run_bind; unfold emit, value, trace, final; cbn [fst snd].
  rewrite run_bind, run_call; unfold value, trace, final; cbn [fst snd].
  rewrite Hmembers.
  rewrite run_bind; unfold value, trace, final; cbn [fst snd].
  destruct (checkMembers env joined [] [] (snd (client_JoinedMembers env roomID wd)))
    as [[[serverStatus failedServers] tm] wm]; cbn [fst snd].
  rewrite run_bind; unfold value, trace, final; cbn [fst snd].
  unfold reportText, fullStatusText, roomDescription.
  destruct (0 <? length failedServers)%nat.
  - rewrite run_bind. unfold sendMessageToRoom. rewrite run_call.
    unfold value, trace, final, ret; cbn [fst snd].
    f_equal. 
  - rewrite run_bind. unfold sendMessageToRoom. rewrite run_call.
    unfold value, trace, final, ret; cbn [fst snd].
    f_equal.
Qed.

(** The same for a room whose members could not be fetched: nothing is
    checked and nothing is sent. *)
Lemma checkRoom_run_no_members (roomID msg : string) (w : W) :
  let d := getRoomDetails env roomID w in
  let description := roomDescription (fst (value d)) (snd (value d)) roomID in
  roomID <> LogRoom config ->
  fst (client_JoinedMembers env roomID (final d)) = Failure msg ->
  trace (checkRoom env config roomID w)
  = (trace d
     ++ [Print ("Testing servers in room: " ++ description ++ LF);
         JoinedMembers roomID;
         Print ("Failed to get joined members for room " ++ roomID ++ ": " ++ msg ++ LF)])%list.
Proof.
  intros d description Hne Hmembers.
  subst d description.
  unfold checkRoom.
  apply String.eqb_neq in Hne. rewrite Hne.
  rewrite run_bind.
  destruct (getRoomDetails env roomID w) as [[[roomAlias roomTitle] td] wd].
  unfold value, trace, final in *; cbn [fst snd] in *.
  rewrite run_bind; unfold emit, value, trace, final; cbn [fst snd].
  rewrite run_bind, run_call; unfold value, trace, final; cbn [fst snd].
  rewrite Hmembers. reflexivity.
Qed.

(** The member loop against the checks of the members. *)
Lemma memberChecks_cons (userID : string) (rest : list string) (w : W) :
  let c := checkServer env (extractDomain userID) w in
  let m := memberChecks env rest (final c) in
  memberChecks env (userID :: rest) w
  = ((extractDomain userID, value c) :: value m, (trace c ++ trace m)%list, final m).
Proof.
  intros c m. subst c m.
  change (memberChecks env (userID :: rest) w)
    with (bind (checkServer env (extractDomain userID))
               (fun status =>
                  bind (memberChecks env rest)
                       (fun others => ret ((extractDomain userID, status) :: others))) w).
  rewrite run_bind, !run_bind. unfold ret.
  rewrite ?value_triple, ?trace_triple, ?final_triple, app_nil_r. reflexivity.
Qed.

Lemma checkMembers_run (joined serverStatus failedServers : list string) (w : W) :
  let m := memberChecks env joined w in
  checkMembers env joined serverStatus failedServers w
  = (((serverStatus ++ map statusLine (value m))%list,
      (failedServers ++ map statusLine (filter isFailed (value m)))%list),
     trace m, final m).
Proof.
  intros m. subst m. revert serverStatus failedServers w.
  induction joined as [|userID rest IH]; intros serverStatus failedServers w.
  - cbn [checkMembers memberChecks]. unfold ret, value, trace, final.
    cbn [fst snd map filter]. rewrite !app_nil_r. reflexivity.
  - rewrite checkMembers_cons, memberChecks_cons, IH.
    rewrite ?value_triple, ?trace_triple, ?final_triple.
    set (status := value (checkServer env (extractDomain userID) w)).
    cbn [map filter].
    change (isFailed (extractDomain userID, status))
      with (strings.HasPrefix status "Failed").
    change (statusLine (extractDomain userID, status))
      with (extractDomain userID ++ " - " ++ status).
    unfold append.
    destruct (strings.HasPrefix status "Failed");
      cbn [map]; rewrite <- ?app_assoc; reflexivity.
Qed.

Lemma memberChecks_shape (joined : list string) (w : W) :
  map fst (value (memberChecks env joined w)) = map extractDomain joined
  /\ Forall (fun entry => okOrUnreachable (snd entry)) (value (memberChecks env joined w))
  /\ forallb probing (trace (memberChecks env joined w)) = true.
Proof.
  revert w. induction joined as [|userID rest IH]; intros w.
  - repeat split. constructor.
  - rewrite memberChecks_cons, value_triple, trace_triple.
    destruct (checkServer_shape env (extractDomain userID) w) as [Hstatus [_ [_ Hprobing]]].
    destruct (IH (final (checkServer env (extractDomain userID) w))) as [Hd [Hall Ht]].
    split; [cbn [map fst]; rewrite Hd; reflexivity|].
    split; [constructor; assumption|].
    rewrite forallb_app, Hprobing, Ht. reflexivity.
Qed.

Lemma getRoomDetails_two_calls (roomID : string) (w : W) :
  calls (trace (getRoomDetails env roomID w))
  = [StateEvent roomID "m.room.name" ""; StateEvent roomID "m.room.canonical_alias" ""].
Proof.
  destruct (getRoomDetails_trace roomID w) as [lines [-> Hlines]].
  destruct Hlines as [->|[text ->]]; reflexivity.
Qed.

Lemma failed_lines_count (results : list (string * string)) (domain : string) :
  Forall (fun entry => okOrUnreachable (snd entry)) results ->
  count_occ string_dec (map statusLine (filter notOK results))
            (domain ++ " - Failed (Unreachable)")
  = length (filter (fun entry => (fst entry =? domain)%string && notOK entry) results).
Proof.
  induction 1 as [|entry results Hentry _ IH]; [reflexivity|].
  cbn [filter].
  destruct (notOK entry) eqn:Hfailed.
  - assert (Hs : snd entry = "Failed (Unreachable)").
    { destruct Hentry as [H|H]; [|exact H].
      unfold notOK in Hfailed. rewrite H in Hfailed. discriminate. }
    cbn [map]. rewrite andb_true_r.
    assert (Hline : statusLine entry = fst entry ++ " - Failed (Unreachable)").
    { unfold statusLine. rewrite Hs. reflexivity. }
    rewrite Hline.
    destruct (String.eqb_spec (fst entry) domain) as [Heq|Hne].
    + rewrite Heq, count_occ_cons_eq by reflexivity. cbn [length]. rewrite IH. reflexivity.
    + rewrite count_occ_cons_neq; [exact IH|].
      intros Habs. apply Hne. apply (append_cancel_r _ _ _ Habs).
  - rewrite andb_false_r. exact IH.
Qed.

(** C7. For a room other than the log room whose member list could be
    fetched, the body of the room loop sends exactly one message, and sends it
    to the log room.  With [results] the domain of every member and the
    status [checkServer] returned for it, in the order visited: if some
    status is not ["OK"] the message is the line "Failed servers in room
    {description}:" followed by the lines of the members whose status is not
    OK, and of those only; otherwise it is "All Servers in room
    {description} are OK".  The calls of the room are the two state events,
    the member list, the members' checks and that one message.  The full
    status text is printed on the console and is not the text sent. *)
Theorem room_report (roomID : string) (joined : list string) (w : W) :
  let d := getRoomDetails env roomID w in
  let description := roomDescription (fst (value d)) (snd (value d)) roomID in
  let members := client_JoinedMembers env roomID (final d) in
  let checks := memberChecks env joined (snd members) in
  let results := value checks in
  let text :=
    if existsb notOK results
    then "Failed servers in room " ++ description ++ ":" ++ LF
         ++ strings.Join (map statusLine (filter notOK results)) LF
    else "All Servers in room " ++ description ++ " are OK" in
  roomID <> LogRoom config ->
  fst members = Success joined ->
  value (checkMembers env joined [] [] (snd members))
  = (map statusLine results, map statusLine (filter notOK results))
  /\ calls (trace (checkRoom env config roomID w))
     = ([StateEvent roomID "m.room.name" ""; StateEvent roomID "m.room.canonical_alias" "";
         JoinedMembers roomID]
        ++ calls (trace checks) ++ [SendText (LogRoom config) text])%list
  /\ sent (trace (checkRoom env config roomID w)) = [(LogRoom config, text)]
  /\ In (fullStatusText description (map statusLine results) ++ LF)
        (printed (trace (checkRoom env config roomID w)))
  /\ text <> fullStatusText description (map statusLine results).
Proof.
  intros d description members checks results text Hne Hmembers.
  pose proof (checkRoom_run roomID joined w Hne Hmembers) as Hrun.
  cbv zeta in Hrun.
  subst text results checks members description d.
  destruct (memberChecks_shape joined
              (snd (client_JoinedMembers env roomID (final (getRoomDetails env roomID w)))))
    as [_ [Hall Hprobing]].
  destruct (filter_isFailed_notOK _ Hall) as [Hfilter _].
  destruct (getRoomDetails_withinRoom roomID w) as [_ Hquiet].
  rewrite checkMembers_run in Hrun. rewrite checkMembers_run.
  rewrite ?value_triple, ?trace_triple in Hrun. rewrite ?value_triple.
  cbn [fst snd app] in Hrun. cbn [fst snd app].
  rewrite Hfilter in Hrun. rewrite Hfilter.
  unfold reportText in Hrun. rewrite length_map, filter_nonempty in Hrun.
  split; [reflexivity|].
  split; [|split; [|split]].
  - rewrite Hrun, calls_app, getRoomDetails_two_calls. cbn [calls app].
    rewrite calls_app. reflexivity.
  - rewrite Hrun, sent_app, Hquiet. cbn [sent app].
    rewrite sent_app, (probing_sent _ Hprobing). reflexivity.
  - rewrite Hrun, printed_app. apply in_or_app. right.
    cbn [printed]. right. rewrite printed_app. apply in_or_app. right.
    left. reflexivity.
  - unfold fullStatusText.
    destruct (existsb notOK _); simpl; discriminate.
Qed.

(** C8, as the code has it.  With [results] the domain of every member and
    the status [checkServer] returned for it, in the order visited, the
    failure list of a room holds the line of every member whose status is
    not ["OK"], in that order: a failing domain is listed as many times as
    there are members of that domain whose check failed, so the list is free
    of duplicates when the members' domains are pairwise distinct, and not in
    general.  The list is what the room's message carries. *)
Theorem failure_lines_per_member (roomID : string) (joined : list string) (w : W) :
  let d := getRoomDetails env roomID w in
  let description := roomDescription (fst (value d)) (snd (value d)) roomID in
  let members := client_JoinedMembers env roomID (final d) in
  let results := value (memberChecks env joined (snd members)) in
  let failedServers := snd (value (checkMembers env joined [] [] (snd members))) in
  roomID <> LogRoom config ->
  fst members = Success joined ->
  map fst results = map extractDomain joined
  /\ failedServers = map statusLine (filter notOK results)
  /\ sent (trace (checkRoom env config roomID w))
     = [(LogRoom config, reportText description failedServers)]
  /\ (forall domain : string,
        count_occ string_dec failedServers (domain ++ " - Failed (Unreachable)")
        = length (filter (fun entry => (fst entry =? domain)%string && notOK entry)
                         results))
  /\ (NoDup (map extractDomain joined) -> NoDup failedServers).
Proof.
  intros d description members results failedServers Hne Hmembers.
  pose proof (checkRoom_run roomID joined w Hne Hmembers) as Hrun.
  cbv zeta in Hrun.
  subst failedServers results members description d.
  destruct (memberChecks_shape joined
              (snd (client_JoinedMembers env roomID (final (getRoomDetails env roomID w)))))
    as [Hdomains [Hall Hprobing]].
  destruct (filter_isFailed_notOK _ Hall) as [Hfilter _].
  destruct (getRoomDetails_withinRoom roomID w) as [_ Hquiet].
  rewrite checkMembers_run in Hrun. rewrite checkMembers_run.
  rewrite ?value_triple, ?trace_triple in Hrun. rewrite ?value_triple.
  cbn [fst snd app] in Hrun. cbn [fst snd app].
  rewrite Hfilter in Hrun. rewrite Hfilter.
  split; [exact Hdomains|].
  split; [reflexivity|].
  split; [|split].
  - rewrite Hrun, sent_app, Hquiet. cbn [sent app].
    rewrite sent_app, (probing_sent _ Hprobing). reflexivity.
  - intros domain. apply failed_lines_count, Hall.
  - intros Hnodup.
    apply failed_lines_NoDup; [exact Hall|].
    rewrite Hdomains. exact Hnodup.
Qed.

(** C5, as the code has it.  A member whose identifier has no colon is not
    left out.  At its turn the member loop runs [checkServer] on the empty
    domain before anything else: the first action is the well-known GET for
    the empty server, and the target the resolver returned for it is probed.
    The line [" - {status}"], with the status that check returned, is added
    to the status list, and to the failure list exactly when that status is
    not ["OK"]; the other members follow. *)
Theorem empty_domain_is_checked
  (userID : string) (rest serverStatus failedServers : list string) (w : W) :
  let run := checkMembers env (userID :: rest) serverStatus failedServers w in
  let c := checkServer env "" w in
  let target := fst (value (resolveMatrixServer env "" w)) in
  let others := memberChecks env rest (final c) in
  extractDomain userID = "" ->
  trace run = (trace c ++ trace others)%list
  /\ hd_error (trace run) = Some (HttpGet None (wellKnownURL ""))
  /\ In (HttpGet (Some (5 * Second)%Z) (versionURL target)) (trace c)
  /\ fst (value run)
     = (serverStatus
        ++ (" - " ++ value c)%string :: map statusLine (value others))%list
  /\ snd (value run)
     = (failedServers
        ++ (if (value c =? "OK")%string then [] else [(" - " ++ value c)%string])
        ++ map statusLine (filter notOK (value others)))%list.
Proof.
  intros run c target others Hempty. subst run c target others.
  rewrite checkMembers_run, memberChecks_cons, Hempty.
  rewrite ?value_triple, ?trace_triple, ?final_triple.
  destruct (checkServer_shape env "" w) as [Hstatus [[tail Hhead] _]].
  destruct (memberChecks_shape rest (final (checkServer env "" w))) as [_ [Hall _]].
  destruct (filter_isFailed_notOK _ Hall) as [Hfilter _].
  split; [reflexivity|].
  split; [rewrite Hhead; reflexivity|].
  split.
  - rewrite checkServer_trace. apply in_or_app. right.
    destruct (checkServerOnline_trace env
                (fst (value (resolveMatrixServer env "" w)))
                (final (resolveMatrixServer env "" w))) as [lines [Hp _]].
    rewrite Hp. left. reflexivity.
  - cbn [fst snd map filter]. split; [reflexivity|].
    rewrite <- Hfilter.
    change (isFailed ("", value (checkServer env "" w)))
      with (strings.HasPrefix (value (checkServer env "" w)) "Failed").
    destruct Hstatus as [Hs|Hs]; rewrite Hs; reflexivity.
Qed.

(** Whatever the room, the body of the room loop asks the client about that
    room only. *)
Lemma checkRoom_withinRoom (roomID : string) (w : W) :
  forallb (withinRoom roomID) (trace (checkRoom env config roomID w)) = true.
Proof.
  destruct (String.eqb_spec roomID (LogRoom config)) as [Heq|Hne].
  - unfold checkRoom. rewrite Heq, String.eqb_refl. reflexivity.
  - destruct (getRoomDetails_withinRoom roomID w) as [Hdetails _].
    destruct (fst (client_JoinedMembers env roomID
                     (final (getRoomDetails env roomID w)))) as [joined|msg] eqn:Hm.
    + rewrite (checkRoom_run roomID joined w Hne Hm).
      rewrite forallb_app, Hdetails. cbn [forallb withinRoom andb].
      rewrite String.eqb_refl, forallb_app.
      destruct (checkMembers_spec joined [] []
                  (snd (client_JoinedMembers env roomID
                          (final (getRoomDetails env roomID w)))))
        as [results [_ [_ [_ Hprobing]]]].
      rewrite (probing_withinRoom roomID _ Hprobing). reflexivity.
    + rewrite (checkRoom_run_no_members roomID msg w Hne Hm).
      rewrite forallb_app, Hdetails. cbn [forallb withinRoom andb].
      rewrite String.eqb_refl. reflexivity.
Qed.

Lemma checkRooms_cons (roomID : string) (rest : list string) (w : W) :
  checkRooms env config (roomID :: rest) w
  = (value (checkRooms env config rest (final (checkRoom env config roomID w))),
     (trace (checkRoom env config roomID w)
      ++ trace (checkRooms env config rest (final (checkRoom env config roomID w))))%list,
     final (checkRooms env config rest (final (checkRoom env config roomID w)))).
Proof.
  change (checkRooms env config (roomID :: rest) w)
    with (bind (checkRoom env config roomID)
               (fun _ => checkRooms env config rest) w).
  rewrite run_bind. reflexivity.
Qed.

Lemma checkRooms_cons_trace (roomID : string) (rest : list string) (w : W) :
  trace (checkRooms env config (roomID :: rest) w)
  = (trace (checkRoom env config roomID w)
     ++ trace (checkRooms env config rest (final (checkRoom env config roomID w))))%list.
Proof. rewrite checkRooms_cons. reflexivity. Qed.

Lemma checkRooms_cons_final (roomID : string) (rest : list string) (w : W) :
  final (checkRooms env config (roomID :: rest) w)
  = final (checkRooms env config rest (final (checkRoom env config roomID w))).
Proof. rewrite checkRooms_cons. reflexivity. Qed.

Lemma checkRoom_log_room (w : W) :
  checkRoom env config (LogRoom config) w
  = (tt, [Print ("Skipping log room: " ++ LogRoom config ++ LF)], w).
Proof. unfold checkRoom. rewrite String.eqb_refl. reflexivity. Qed.

(** C9. For the log room the body of the room loop prints one console line
    and does nothing else: no state event, no member list, no GET, no SRV
    lookup, no message, and the world is untouched.  Hence in a pass over any
    list of rooms no action asks the client about the log room, and the
    calls made and the world reached are those of a pass over the list with
    the log room removed. *)
Theorem log_room_skipped (rooms : list string) (w : W) :
  let others := filter (fun r => negb (r =? LogRoom config)%string) rooms in
  checkRoom env config (LogRoom config) w
  = (tt, [Print ("Skipping log room: " ++ LogRoom config ++ LF)], w)
  /\ existsb (touchesRoom (LogRoom config)) (trace (checkRooms env config rooms w)) = false
  /\ calls (trace (checkRooms env config rooms w))
     = calls (trace (checkRooms env config others w))
  /\ final (checkRooms env config rooms w) = final (checkRooms env config others w).
Proof.
  intros others. subst others.
  split; [apply checkRoom_log_room|].
  revert w. induction rooms as [|roomID rest IH]; intros w.
  - repeat split; reflexivity.
  - cbn [filter].
    destruct (String.eqb_spec roomID (LogRoom config)) as [Heq|Hne]; cbn [negb].
    + subst roomID.
      rewrite checkRooms_cons_trace, checkRooms_cons_final, checkRoom_log_room.
      rewrite trace_triple, final_triple.
      cbn [app existsb touchesRoom calls orb].
      apply IH.
    + rewrite !checkRooms_cons_trace, !checkRooms_cons_final.
      destruct (IH (final (checkRoom env config roomID w))) as [Htouch [Hcalls Hfinal]].
      rewrite existsb_app, Htouch, orb_false_r, !calls_app, Hcalls.
      repeat split; [|assumption].
      apply (withinRoom_touchesRoom roomID); [exact Hne|].
      apply checkRoom_withinRoom.
Qed.

End Sweep.

(** ** The properties at work in the sample world *)

Lemma resolve_well_known_witness :
  let resp := {| StatusCode := 200; Body := Demo.wellKnownBody |} in
  (http_Get Demo.env None (wellKnownURL "delegated.org") 0%nat = (Success resp, 1%nat)
   /\ StatusCode resp = StatusOK
   /\ json_Decode_server Demo.env (Body resp) = ("matrix.delegated.org:443", None)
   /\ "matrix.delegated.org:443" <> "")
  /\ resolveMatrixServer Demo.env "delegated.org" 0%nat
     = (("matrix.delegated.org:443", nil_error),
        [HttpGet None (wellKnownURL "delegated.org")], 1%nat).
Proof.
  intros resp.
  split; [repeat split; try reflexivity; discriminate|].
  apply (resolve_well_known Demo.env "delegated.org" "matrix.delegated.org:443" resp 0%nat 1%nat);
    [reflexivity|reflexivity|reflexivity|discriminate].
Defined.

(** C2 as stated fails when the lookup hands back a record together with an
    error, as [net.LookupSRV] does after leaving out records with invalid
    names: the code ignores the record and falls back to the default. *)
Lemma resolve_srv_ignores_records_with_error :
  let partial := {| Target := "matrix.partial.org."; Port := 8448; Priority := 10; Weight := 5 |} in
  http_Get Demo.env None (wellKnownURL "partial.org") 0%nat
  = (Failure "connection refused", 1%nat)
  /\ wellKnownFails Demo.env (Failure "connection refused")
  /\ net_LookupSRV Demo.env "matrix" "tcp" "partial.org" 1%nat
     = (([partial], Some "SRV target is invalid"), 2%nat)
  /\ stripTrailingDotHostPort partial = "matrix.partial.org:8448"
  /\ fst (value (resolveMatrixServer Demo.env "partial.org" 0%nat)) = "partial.org:8448"
  /\ fst (value (resolveMatrixServer Demo.env "partial.org" 0%nat))
     <> stripTrailingDotHostPort partial.
Proof.
  intros partial. repeat split; try reflexivity.
  vm_compute. discriminate.
Qed.

Lemma resolve_srv_first_record_witness :
  let first := {| Target := "matrix.good.org."; Port := 8448; Priority := 10; Weight := 5 |} in
  let second := {| Target := "backup.good.org."; Port := 443; Priority := 20; Weight := 5 |} in
  (http_Get Demo.env None (wellKnownURL "good.org") 0%nat
   = (Failure "connection refused", 1%nat)
   /\ wellKnownFails Demo.env (Failure "connection refused")
   /\ net_LookupSRV Demo.env "matrix" "tcp" "good.org" 1%nat
      = ((first :: [second], None), 2%nat)
   /\ dnsName (Target first) = true)
  /\ resolveMatrixServer Demo.env "good.org" 0%nat
     = ((stripTrailingDotHostPort first, nil_error),
        [HttpGet None (wellKnownURL "good.org"); LookupSRV "matrix" "tcp" "good.org"],
        2%nat).
Proof.
  intros first second.
  split; [repeat split; reflexivity|].
  apply (resolve_srv_first_record Demo.env "good.org" (Failure "connection refused")
           first [second] 0%nat 1%nat 2%nat);
    [reflexivity|exact I|reflexivity|reflexivity].
Defined.

Lemma resolve_never_fails_witness :
  (http_Get Demo.env None (wellKnownURL "bad.org") 0%nat
   = (Failure "connection refused", 1%nat)
   /\ wellKnownFails Demo.env (Failure "connection refused")
   /\ net_LookupSRV Demo.env "matrix" "tcp" "bad.org" 1%nat
      = (([], Some "no such host"), 2%nat))
  /\ resolveMatrixServer Demo.env "bad.org" 0%nat
     = (("bad.org:8448", nil_error),
        [HttpGet None (wellKnownURL "bad.org"); LookupSRV "matrix" "tcp" "bad.org"],
        2%nat).
Proof.
  split; [repeat split; reflexivity|].
  apply (proj1 (proj2 (resolve_never_fails Demo.env "bad.org" 0%nat))
           (Failure "connection refused") [] (Some "no such host") 1%nat 2%nat);
    [reflexivity|exact I|reflexivity|left; discriminate].
Defined.

(** C5 as stated fails in a room whose one member is ["alice"]: the empty
    domain is resolved and probed, and its line is the room's report. *)
Lemma sweep_checks_member_without_colon :
  let run := checkRoom Demo.env Demo.config "!b:x" 0%nat in
  extractDomain "alice" = ""
  /\ client_JoinedMembers Demo.env "!b:x" 2%nat = (Success ["alice"], 3%nat)
  /\ calls (trace run)
     = [StateEvent "!b:x" "m.room.name" "";
        StateEvent "!b:x" "m.room.canonical_alias" "";
        JoinedMembers "!b:x";
        HttpGet None "https:///.well-known/matrix/server";
        LookupSRV "matrix" "tcp" "";
        HttpGet (Some (5 * Second)%Z) "https://:8448/_matrix/federation/v1/version";
        SendText "!log:x"
          ("Failed servers in room !b:x - Room ( !b:x ):" ++ LF ++ " - Failed (Unreachable)")]
  /\ value (checkMembers Demo.env ["alice"] [] [] 3%nat)
     = ([" - Failed (Unreachable)"], [" - Failed (Unreachable)"]).
Proof. intros run. repeat split; reflexivity. Qed.

Lemma empty_domain_is_checked_witness :
  let run := checkMembers Demo.env ["alice"; "u2:bad.org"] [] [] 3%nat in
  let c := checkServer Demo.env "" 3%nat in
  let target := fst (value (resolveMatrixServer Demo.env "" 3%nat)) in
  let others := memberChecks Demo.env ["u2:bad.org"] (final c) in
  extractDomain "alice" = ""
  /\ (trace run = (trace c ++ trace others)%list
      /\ hd_error (trace run) = Some (HttpGet None (wellKnownURL ""))
      /\ In (HttpGet (Some (5 * Second)%Z) (versionURL target)) (trace c)
      /\ fst (value run)
         = ([] ++ (" - " ++ value c)%string :: map statusLine (value others))%list
      /\ snd (value run)
         = ([] ++ (if (value c =? "OK")%string then [] else [(" - " ++ value c)%string])
               ++ map statusLine (filter notOK (value others)))%list).
Proof.
  intros run c target others. split; [reflexivity|].
  apply (empty_domain_is_checked Demo.env "alice" ["u2:bad.org"] [] [] 3%nat). reflexivity.
Defined.

Lemma room_report_witness :
  let joined := ["u1:good.org"; "u2:bad.org"] in
  let d := getRoomDetails Demo.env "!a:x" 0%nat in
  let description := roomDescription (fst (value d)) (snd (value d)) "!a:x" in
  let members := client_JoinedMembers Demo.env "!a:x" (final d) in
  let checks := memberChecks Demo.env joined (snd members) in
  let results := value checks in
  let text :=
    if existsb notOK results
    then "Failed servers in room " ++ description ++ ":" ++ LF
         ++ strings.Join (map statusLine (filter notOK results)) LF
    else "All Servers in room " ++ description ++ " are OK" in
  let run := checkRoom Demo.env Demo.config "!a:x" 0%nat in
  ("!a:x" <> LogRoom Demo.config /\ fst members = Success joined)
  /\ (value (checkMembers Demo.env joined [] [] (snd members))
      = (map statusLine results, map statusLine (filter notOK results))
      /\ calls (trace run)
         = ([StateEvent "!a:x" "m.room.name" "";
             StateEvent "!a:x" "m.room.canonical_alias" ""; JoinedMembers "!a:x"]
            ++ calls (trace checks) ++ [SendText (LogRoom Demo.config) text])%list
      /\ sent (trace run) = [(LogRoom Demo.config, text)]
      /\ In (fullStatusText description (map statusLine results) ++ LF)
            (printed (trace run))
      /\ text <> fullStatusText description (map statusLine results)).
Proof.
  intros joined d description members checks results text run.
  split; [split; [discriminate|reflexivity]|].
  apply (room_report Demo.env Demo.config "!a:x" joined 0%nat);
    [discriminate|reflexivity].
Defined.

(** C8 as stated fails in a room whose two members share a failing domain:
    its line is in the failure list, and in the message, twice. *)
Lemma shared_failing_domain_listed_twice :
  let lists := value (checkMembers Demo.env ["@u1:bad.org"; "@u2:bad.org"] [] [] 3%nat) in
  client_JoinedMembers Demo.env "!c:x" 2%nat
  = (Success ["@u1:bad.org"; "@u2:bad.org"], 3%nat)
  /\ snd lists = ["bad.org - Failed (Unreachable)"; "bad.org - Failed (Unreachable)"]
  /\ ~ NoDup (snd lists)
  /\ sent (trace (checkRoom Demo.env Demo.config "!c:x" 0%nat))
     = [("!log:x",
         "Failed servers in room !c:x - Room ( !c:x ):" ++ LF
         ++ "bad.org - Failed (Unreachable)" ++ LF
         ++ "bad.org - Failed (Unreachable)")].
Proof.
  intros lists. split; [reflexivity|]. split; [reflexivity|]. split; [|reflexivity].
  intros Hnodup.
  change (snd lists)
    with ["bad.org - Failed (Unreachable)"; "bad.org - Failed (Unreachable)"] in Hnodup.
  inversion Hnodup as [|x l Hnotin _]; subst.
  apply Hnotin. left. reflexivity.
Qed.

Lemma failure_lines_per_member_witness :
  let joined := ["@u1:bad.org"; "@u2:bad.org"] in
  let d := getRoomDetails Demo.env "!c:x" 0%nat in
  let description := roomDescription (fst (value d)) (snd (value d)) "!c:x" in
  let members := client_JoinedMembers Demo.env "!c:x" (final d) in
  let results := value (memberChecks Demo.env joined (snd members)) in
  let failedServers := snd (value (checkMembers Demo.env joined [] [] (snd members))) in
  ("!c:x" <> LogRoom Demo.config /\ fst members = Success joined)
  /\ (map fst results = map extractDomain joined
      /\ failedServers = map statusLine (filter notOK results)
      /\ sent (trace (checkRoom Demo.env Demo.config "!c:x" 0%nat))
         = [(LogRoom Demo.config, reportText description failedServers)]
      /\ (forall domain : string,
            count_occ string_dec failedServers (domain ++ " - Failed (Unreachable)")
            = length (filter (fun entry => (fst entry =? domain)%string && notOK entry)
                             results))
      /\ (NoDup (map extractDomain joined) -> NoDup failedServers)).
Proof.
  intros joined d description members results failedServers.
  split; [split; [discriminate|reflexivity]|].
  apply (failure_lines_per_member Demo.env Demo.config "!c:x" joined 0%nat);
    [discriminate|reflexivity].
Defined.

(** The same room, counted: the line of [bad.org] is in the failure list
    twice, once for each of its two members. *)
Example shared_failing_domain_counted :
  count_occ string_dec
    (snd (value (checkMembers Demo.env ["@u1:bad.org"; "@u2:bad.org"] [] [] 3%nat)))
    "bad.org - Failed (Unreachable)" = 2%nat
  /\ value (memberChecks Demo.env ["@u1:bad.org"; "@u2:bad.org"] 3%nat)
     = [("bad.org", "Failed (Unreachable)"); ("bad.org", "Failed (Unreachable)")].
Proof. split; reflexivity. Qed.

Lemma status_code_ignored_witness :
  let resp := {| StatusCode := 404; Body := Demo.errorBody |} in
  let tr := [HttpGet None (wellKnownURL "good.org"); LookupSRV "matrix" "tcp" "good.org"] in
  (resolveMatrixServer Demo.env "good.org" 0%nat
   = (("matrix.good.org:8448", None), tr, 2%nat)
   /\ http_Get Demo.env (Some (5 * Second)%Z) (versionURL "matrix.good.org:8448") 2%nat
      = (Success resp, 3%nat)
   /\ json_Decode_object Demo.env (Body resp) = None)
  /\ value (checkServerOnline Demo.env "matrix.good.org:8448" 2%nat) = true
  /\ value (checkServer Demo.env "good.org" 0%nat) = "OK".
Proof.
  intros resp tr.
  split; [repeat split; reflexivity|].
  apply (status_code_ignored Demo.env "good.org" "matrix.good.org:8448" None tr resp
           0%nat 2%nat 3%nat); reflexivity.
Defined.

(** * Further properties of the code *)

(** ** [extractDomain] on every input *)

Lemma Split_colon_unfold (s : string) :
  strings.Split s ":"%char
  = beforeFirstColon s
    :: (if containsByte s ":"%char
        then strings.Split (afterFirstColon s) ":"%char else []).
Proof.
  induction s as [|c rest IH]; [reflexivity|].
  simpl. destruct (Ascii.eqb c ":"%char) eqn:Hc; simpl; [reflexivity|].
  rewrite IH. reflexivity.
Qed.

Lemma beforeFirstColon_colon_free (s : string) :
  containsByte (beforeFirstColon s) ":"%char = false.
Proof.
  induction s as [|c rest IH]; [reflexivity|].
  simpl. destruct (Ascii.eqb c ":"%char) eqn:Hc; [reflexivity|].
  simpl. rewrite Hc. exact IH.
Qed.

Lemma extractDomain_unfold (userID : string) :
  extractDomain userID
  = if containsByte userID ":"%char
    then beforeFirstColon (afterFirstColon userID) else "".
Proof.
  unfold extractDomain. rewrite Split_colon_unfold.
  destruct (containsByte userID ":"%char); [|reflexivity].
  rewrite Split_colon_unfold. reflexivity.
Qed.

Lemma beforeFirstColon_fixed (s : string) :
  beforeFirstColon s = s <-> containsByte s ":"%char = false.
Proof.
  induction s as [|c rest IH]; [split; reflexivity|].
  simpl. destruct (Ascii.eqb c ":"%char) eqn:Hc; simpl.
  - split; discriminate.
  - split.
    + intros H. inversion H as [Hrest]. rewrite Hrest. apply IH, Hrest.
    + intros H. f_equal. apply IH, H.
Qed.

Lemma afterFirstColon_without_colon (s : string) :
  containsByte s ":"%char = false -> afterFirstColon s = "".
Proof.
  induction s as [|c rest IH]; [reflexivity|].
  simpl. destruct (Ascii.eqb c ":"%char); simpl; [discriminate|exact IH].
Qed.

(** X1. On every identifier [extractDomain] returns the text between the
    first colon and the second one (or the end when there is no second
    colon), and the empty string when there is no colon at all.  It is the
    whole text after the first colon exactly when that text has no further
    colon. *)
Theorem extractDomain_between_colons (userID : string) :
  extractDomain userID
  = (if containsByte userID ":"%char
     then beforeFirstColon (afterFirstColon userID) else "")
  /\ (extractDomain userID = afterFirstColon userID
      <-> containsByte (afterFirstColon userID) ":"%char = false).
Proof.
  split; [apply extractDomain_unfold|].
  rewrite extractDomain_unfold.
  destruct (containsByte userID ":"%char) eqn:Hc.
  - apply beforeFirstColon_fixed.
  - rewrite (afterFirstColon_without_colon _ Hc). split; reflexivity.
Qed.

(** X2. Whatever the identifier, the extracted domain holds no colon: it
    never carries a port, nor the colons of an IPv6 literal. *)
Theorem extractDomain_colon_free (userID : string) :
  containsByte (extractDomain userID) ":"%char = false.
Proof.
  rewrite extractDomain_unfold.
  destruct (containsByte userID ":"%char); [|reflexivity].
  apply beforeFirstColon_colon_free.
Qed.

(** ** Dots around an SRV target *)

Lemma TrimLeft_dot_no_leading (s : string) :
  startsWithDot (strings.TrimLeft s ".") = false.
Proof.
  induction s as [|c rest IH]; [reflexivity|].
  simpl. rewrite orb_false_r.
  destruct (Ascii.eqb c ".") eqn:Hc; [exact IH|].
  simpl. exact Hc.
Qed.

Lemma TrimRight_dot_cases (c : ascii) (rest : string) :
  strings.TrimRight (String c rest) "."
  = match strings.TrimRight rest "." with
    | EmptyString => if Ascii.eqb c "." then EmptyString else String c EmptyString
    | kept => String c kept
    end.
Proof. simpl. rewrite orb_false_r. reflexivity. Qed.

Lemma TrimRight_dot_no_trailing (s : string) :
  endsWithDot (strings.TrimRight s ".") = false.
Proof.
  induction s as [|c rest IH]; [reflexivity|].
  rewrite TrimRight_dot_cases.
  destruct (strings.TrimRight rest ".") as [|d kept] eqn:Hk.
  - destruct (Ascii.eqb c ".") eqn:Hc; [reflexivity|]. simpl. exact Hc.
  - exact IH.
Qed.

Lemma TrimRight_dot_keeps_head (s : string) :
  startsWithDot s = false -> startsWithDot (strings.TrimRight s ".") = false.
Proof.
  destruct s as [|c rest]; [reflexivity|].
  intros Hc. simpl in Hc. rewrite TrimRight_dot_cases.
  destruct (strings.TrimRight rest "."); [rewrite Hc|]; simpl; trivial.
Qed.

Lemma TrimRight_dot_empty (s : string) :
  strings.TrimRight s "." = "" <-> allDots s = true.
Proof.
  induction s as [|c rest IH]; [split; reflexivity|].
  rewrite TrimRight_dot_cases. simpl.
  destruct (strings.TrimRight rest ".") as [|d kept].
  - destruct (Ascii.eqb c "."); simpl.
    + split; intros _; [apply IH|]; reflexivity.
    + split; discriminate.
  - split; [discriminate|].
    intros H. apply andb_true_iff in H as [_ H]. apply IH in H. discriminate.
Qed.

Lemma TrimLeft_dot_allDots (s : string) :
  allDots (strings.TrimLeft s ".") = allDots s.
Proof.
  induction s as [|c rest IH]; [reflexivity|].
  simpl. rewrite orb_false_r.
  destruct (Ascii.eqb c ".") eqn:Hc; simpl; [exact IH|].
  rewrite Hc. reflexivity.
Qed.

Lemma Trim_dot_shape (s : string) :
  startsWithDot (strings.Trim s ".") = false
  /\ endsWithDot (strings.Trim s ".") = false
  /\ (strings.Trim s "." = "" <-> allDots s = true).
Proof.
  unfold strings.Trim. split; [|split].
  - apply TrimRight_dot_keeps_head, TrimLeft_dot_no_leading.
  - apply TrimRight_dot_no_trailing.
  - rewrite TrimRight_dot_empty, TrimLeft_dot_allDots. reflexivity.
Qed.

(** ** More on the resolver and the probe *)

Section ResolverMore.

Context {W : Type}.
Variable env : Env W.

(** The well-known step either gives no target or gives one. *)
Lemma wellKnown_dichotomy (got : result Response) :
  wellKnownFails env got
  \/ exists (resp : Response) (target : string),
       got = Success resp
       /\ StatusCode resp = StatusOK
       /\ json_Decode_server env (Body resp) = (target, None)
       /\ target <> "".
Proof.
  destruct got as [resp|msg]; [|left; exact I].
  simpl.
  destruct (Z.eq_dec (StatusCode resp) StatusOK) as [Hs|Hs]; [|left; left; exact Hs].
  destruct (json_Decode_server env (Body resp)) as [target err] eqn:Hd; simpl.
  destruct err as [msg|]; [left; right; left; discriminate|].
  destruct (String.eqb_spec target "") as [He|Hne]; [left; right; right; exact He|].
  right. exists resp, target. repeat split; assumption.
Qed.

Lemma resolve_delegated_run (server target : string) (resp : Response) (w : W) :
  fst (http_Get env None (wellKnownURL server) w) = Success resp ->
  StatusCode resp = StatusOK ->
  json_Decode_server env (Body resp) = (target, None) ->
  target <> "" ->
  resolveMatrixServer env server w
  = ((target, nil_error), [HttpGet None (wellKnownURL server)],
     snd (http_Get env None (wellKnownURL server) w)).
Proof.
  intros Hget Hstatus Hdecode Hne.
  unfold resolveMatrixServer, wellKnownURL in *.
  rewrite run_bind, run_call; unfold value, trace, final; cbn [fst snd].
  rewrite Hget, Hstatus, Z.eqb_refl, Hdecode. cbn [isNil andb].
  destruct (String.eqb_spec target "") as [He|_]; [contradiction|].
  reflexivity.
Qed.

(** X3. The resolver always starts with the well-known GET and performs at
    most one more call; that call is the SRV lookup for [_matrix._tcp] of
    the server, and it is made exactly when the well-known step gave no
    target (failed GET, status other than 200, decoding error or empty
    [m.server]). *)
Theorem srv_lookup_iff_well_known_fails (server : string) (w : W) :
  let got := fst (http_Get env None (wellKnownURL server) w) in
  let t := trace (resolveMatrixServer env server w) in
  hd_error t = Some (HttpGet None (wellKnownURL server))
  /\ (length t <= 2)%nat
  /\ (In (LookupSRV "matrix" "tcp" server) t <-> wellKnownFails env got)
  /\ (forall a, In a t ->
        a = HttpGet None (wellKnownURL server) \/ a = LookupSRV "matrix" "tcp" server).
Proof.
  intros got t. subst t.
  destruct (wellKnown_dichotomy got) as [Hfail|[resp [target [Hgot [Hs [Hd Hne]]]]]].
  - assert (Hget : http_Get env None (wellKnownURL server) w
                   = (got, snd (http_Get env None (wellKnownURL server) w))).
    { subst got. destruct (http_Get env None (wellKnownURL server) w); reflexivity. }
    rewrite (resolve_after_well_known env server w _ got Hget Hfail), trace_triple.
    split; [reflexivity|]. split; [simpl; lia|]. split.
    + split; [intros _; exact Hfail|intros _; right; left; reflexivity].
    + intros a [Ha|[Ha|[]]]; [left|right]; symmetry; exact Ha.
  - rewrite (resolve_delegated_run server target resp w Hgot Hs Hd Hne), trace_triple.
    split; [reflexivity|]. split; [simpl; lia|]. split.
    + split.
      * intros [Ha|[]]. discriminate Ha.
      * intros Hfail. exfalso. rewrite Hgot in Hfail. simpl in Hfail.
        rewrite Hd in Hfail. simpl in Hfail.
        destruct Hfail as [H|[H|H]]; [contradiction| |contradiction].
        apply H. reflexivity.
    + intros a [Ha|[]]. left. symmetry. exact Ha.
Qed.

(** X4. The host the resolver takes from an SRV record neither starts nor
    ends with a dot, and it is empty exactly when the record's target is made
    of dots only: the root target ["."] resolves to [":port"]. *)
Theorem srv_host_without_outer_dots
  (server : string) (got : result Response) (srv : SRV) (others : list SRV) (w w1 w2 : W) :
  let host := strings.Trim (Target srv) "." in
  http_Get env None (wellKnownURL server) w = (got, w1) ->
  wellKnownFails env got ->
  net_LookupSRV env "matrix" "tcp" server w1 = ((srv :: others, None), w2) ->
  fst (value (resolveMatrixServer env server w))
  = host ++ ":" ++ fmt.decimal (Z.of_N (Port srv))
  /\ startsWithDot host = false
  /\ endsWithDot host = false
  /\ (host = "" <-> allDots (Target srv) = true).
Proof.
  intros host Hget Hfail Hsrv.
  rewrite (resolve_after_well_known env server w w1 got Hget Hfail), Hsrv.
  split; [reflexivity|]. apply Trim_dot_shape.
Qed.

(** The probe, case by case. *)
Lemma checkServerOnline_cases (target : string) (w : W) :
  let answer := http_Get env (Some (5 * Second)%Z) (versionURL target) w in
  let get := HttpGet (Some (5 * Second)%Z) (versionURL target) in
  (exists resp,
     fst answer = Success resp /\ json_Decode_object env (Body resp) = None
     /\ checkServerOnline env target w = (true, [get], snd answer))
  \/ (exists msg,
       fst answer = Failure msg
       /\ checkServerOnline env target w
          = (false,
             [get; Print ("Failed to reach server " ++ target ++ ": " ++ msg ++ LF)],
             snd answer))
  \/ (exists resp msg,
       fst answer = Success resp /\ json_Decode_object env (Body resp) = Some msg
       /\ checkServerOnline env target w
          = (false,
             [get; Print ("Invalid JSON response from server " ++ target ++ ": " ++ msg ++ LF)],
             snd answer)).
Proof.
  intros answer get. subst answer get.
  unfold checkServerOnline, versionURL.
  rewrite run_bind, run_call; unfold value, trace, final; cbn [fst snd].
  destruct (http_Get env _ _ w) as [[resp|msg] w1]; cbn [fst snd].
  - destruct (json_Decode_object env (Body resp)) as [msg|] eqn:Hd.
    + right; right. exists resp, msg. repeat split. exact Hd.
    + left. exists resp. repeat split. exact Hd.
  - right; left. exists msg. repeat split.
Qed.

(** X5. A check of one server is the resolution followed by one probe of
    exactly the target the resolver returned, made in the world the resolver
    left: two or three calls in all.  The status is ["OK"]
    exactly when that probe got a response whose body decoded without
    error. *)
Theorem checkServer_probes_resolved_target (server : string) (w : W) :
  let r := resolveMatrixServer env server w in
  let target := fst (value r) in
  let answer := http_Get env (Some (5 * Second)%Z) (versionURL target) (final r) in
  calls (trace (checkServer env server w))
  = (trace r ++ [HttpGet (Some (5 * Second)%Z) (versionURL target)])%list
  /\ final (checkServer env server w) = snd answer
  /\ (value (checkServer env server w) = "OK"
      <-> exists resp, fst answer = Success resp
                       /\ json_Decode_object env (Body resp) = None)
  /\ (2 <= length (calls (trace (checkServer env server w))) <= 3)%nat.
Proof.
  intros r target answer. subst r target answer.
  rewrite checkServer_run, value_triple, trace_triple, final_triple.
  set (r := resolveMatrixServer env server w).
  assert (Hcalls : calls (trace r) = trace r /\ (1 <= length (trace r) <= 2)%nat).
  { destruct (resolve_trace env server w) as [H|H]; fold r in H; rewrite H;
      split; simpl; try reflexivity; lia. }
  destruct Hcalls as [Hcalls Hlen].
  rewrite calls_app, Hcalls.
  destruct (checkServerOnline_cases (fst (value r)) (final r))
    as [[resp [Hok [Hd Hrun]]]|[[msg [Hko Hrun]]|[resp [msg [Hok [Hd Hrun]]]]]];
    rewrite Hrun, value_triple, trace_triple, final_triple; cbn [calls];
    (split; [reflexivity|]); (split; [reflexivity|]);
    (split; [|rewrite length_app; simpl; lia]).
  - split; [intros _; exists resp; split; assumption|reflexivity].
  - split; [discriminate|]. intros [resp [Hok _]]. rewrite Hko in Hok. discriminate.
  - split; [discriminate|]. intros [resp' [Hok' Hd']].
    rewrite Hok in Hok'. inversion Hok'; subst resp'. rewrite Hd in Hd'. discriminate.
Qed.

(** X6. The probe reports every failure on the console and nothing else.
    When the GET fails it returns [false] and prints the one line "Failed to
    reach server {target}: {error of the GET}"; when the GET gave a response
    whose body does not decode it returns [false] and prints the one line
    "Invalid JSON response from server {target}: {error of the decoding}";
    when the body decodes it returns [true] and prints nothing.  So it prints
    nothing exactly when it returns [true]. *)
Theorem probe_failure_is_printed (target : string) (w : W) :
  let answer := fst (http_Get env (Some (5 * Second)%Z) (versionURL target) w) in
  let r := checkServerOnline env target w in
  (forall msg, answer = Failure msg ->
     value r = false
     /\ printed (trace r) = ["Failed to reach server " ++ target ++ ": " ++ msg ++ LF])
  /\ (forall resp msg,
        answer = Success resp -> json_Decode_object env (Body resp) = Some msg ->
        value r = false
        /\ printed (trace r)
           = ["Invalid JSON response from server " ++ target ++ ": " ++ msg ++ LF])
  /\ (forall resp,
        answer = Success resp -> json_Decode_object env (Body resp) = None ->
        value r = true /\ printed (trace r) = [])
  /\ (value r = true <-> printed (trace r) = []).
Proof.
  intros answer r. subst answer r.
  destruct (checkServerOnline_cases target w)
    as [[resp [Hok [Hd Hrun]]]|[[msg [Hko Hrun]]|[resp [msg [Hok [Hd Hrun]]]]]];
    rewrite Hrun, value_triple, trace_triple; cbn [printed];
    (split; [|split; [|split]]).
  - intros m H. rewrite Hok in H. discriminate H.
  - intros resp' m H Hd'. rewrite Hok in H. injection H as <-.
    rewrite Hd in Hd'. discriminate Hd'.
  - intros resp' H Hd'. split; reflexivity.
  - split; intros _; reflexivity.
  - intros m H. rewrite Hko in H. injection H as <-. split; reflexivity.
  - intros resp' m H Hd'. rewrite Hko in H. discriminate H.
  - intros resp' H Hd'. rewrite Hko in H. discriminate H.
  - split; intros H; discriminate H.
  - intros m H. rewrite Hok in H. discriminate H.
  - intros resp' m H Hd'. rewrite Hok in H. injection H as <-.
    rewrite Hd in Hd'. injection Hd' as <-. split; reflexivity.
  - intros resp' H Hd'. rewrite Hok in H. injection H as <-.
    rewrite Hd in Hd'. discriminate Hd'.
  - split; intros H; discriminate H.
Qed.

End ResolverMore.

(** ** More on the room sweep *)

Lemma append_empty_r (s : string) : s ++ "" = s.
Proof. induction s as [|c s IH]; simpl; [reflexivity|]. rewrite IH. reflexivity. Qed.

Lemma append_associative (a b c : string) : (a ++ b) ++ c = a ++ (b ++ c).
Proof. induction a as [|x a IH]; simpl; [reflexivity|]. rewrite IH. reflexivity. Qed.

Lemma Join_contains (lines : list string) (sep line : string) :
  In line lines -> containsText (strings.Join lines sep) line.
Proof.
  unfold strings.Join, containsText.
  induction lines as [|x rest IH]; intros Hin; [destruct Hin|].
  destruct Hin as [Heq|Hin].
  - subst x. destruct rest as [|y rest].
    + exists "", "". simpl. rewrite append_empty_r. reflexivity.
    + exists "", (sep ++ String.concat sep (y :: rest)). reflexivity.
  - destruct rest as [|y rest]; [destruct Hin|].
    destruct (IH Hin) as [before [after Heq]].
    exists (x ++ sep ++ before), after.
    change (String.concat sep (x :: y :: rest))
      with (x ++ sep ++ String.concat sep (y :: rest)).
    rewrite Heq, !append_associative. reflexivity.
Qed.

Lemma containsText_prefixed (pre text piece : string) :
  containsText text piece -> containsText (pre ++ text) piece.
Proof.
  intros [before [after Heq]]. exists (pre ++ before), after.
  rewrite Heq, append_associative. reflexivity.
Qed.

Section SweepMore.

Context {W : Type}.
Variable env : Env W.
Variable config : Config.

Lemma getRoomDetails_calls (roomID : string) (w : W) :
  calls (trace (getRoomDetails env roomID w))
  = [StateEvent roomID "m.room.name" ""; StateEvent roomID "m.room.canonical_alias" ""].
Proof.
  destruct (getRoomDetails_trace env roomID w) as [lines [-> Hlines]].
  destruct Hlines as [->|[text ->]]; reflexivity.
Qed.

(** X7. [getRoomDetails] always asks for both state events of the room,
    the name first and the canonical alias second, the second in the world
    the first left, whatever the first answered.  The title is the room's
    name when the first call gave a non-empty one without error, and
    ["(unknown title)"] otherwise, so it is never empty.  The alias is the
    canonical alias when the second call gave a non-empty one without error,
    and nothing is printed; otherwise it is the room identifier, and one
    console line says that no canonical alias was found. *)
Theorem getRoomDetails_fallbacks (roomID : string) (w : W) :
  let r := getRoomDetails env roomID w in
  let name := client_StateEvent env roomID "m.room.name" "" w in
  let alias := client_StateEvent env roomID "m.room.canonical_alias" "" (snd name) in
  calls (trace r)
  = [StateEvent roomID "m.room.name" ""; StateEvent roomID "m.room.canonical_alias" ""]
  /\ final r = snd alias
  /\ snd (value r) <> ""
  /\ (snd (fst name) = None -> fst (fst name) <> "" ->
      snd (value r) = fst (fst name))
  /\ (snd (fst name) <> None \/ fst (fst name) = "" ->
      snd (value r) = "(unknown title)")
  /\ (snd (fst alias) = None -> fst (fst alias) <> "" ->
      fst (value r) = fst (fst alias) /\ printed (trace r) = [])
  /\ (snd (fst alias) <> None \/ fst (fst alias) = "" ->
      fst (value r) = roomID
      /\ printed (trace r) = ["No canonical alias found for room " ++ roomID ++ LF]).
Proof.
  intros r name alias. subst r name alias.
  unfold getRoomDetails.
  rewrite run_bind, run_call; unfold value, trace, final; cbn [fst snd].
  destruct (client_StateEvent env roomID "m.room.name" "" w) as [[Name err] w1];
    cbn [fst snd].
  rewrite run_bind, run_call; unfold value, trace, final; cbn [fst snd].
  destruct (client_StateEvent env roomID "m.room.canonical_alias" "" w1)
    as [[Alias err'] w2]; cbn [fst snd].
  assert (Htitle :
    let title := if negb (isNil err) || (Name =? "")%string
                 then "(unknown title)" else Name in
    title <> ""
    /\ (err = None -> Name <> "" -> title = Name)
    /\ (err <> None \/ Name = "" -> title = "(unknown title)")).
  { destruct err as [msg|]; cbn [isNil negb orb].
    - split; [discriminate|]. split; [intros H; discriminate H|reflexivity].
    - destruct (String.eqb_spec Name "") as [He|Hne].
      + split; [discriminate|]. split; [intros _ H; contradiction|reflexivity].
      + split; [exact Hne|]. split; [reflexivity|].
        intros [H|H]; [exfalso; apply H; reflexivity|contradiction]. }
  cbv zeta in Htitle. destruct Htitle as [Hne [Hname Hunknown]].
  destruct err' as [msg|]; cbn [isNil negb orb].
  - cbn [fst snd calls printed app].
    split; [reflexivity|]. split; [reflexivity|]. split; [exact Hne|].
    split; [exact Hname|]. split; [exact Hunknown|].
    split; [intros H; discriminate H|]. intros _. split; reflexivity.
  - destruct (String.eqb_spec Alias "") as [He|Hna]; cbn [fst snd calls printed app].
    + split; [reflexivity|]. split; [reflexivity|]. split; [exact Hne|].
      split; [exact Hname|]. split; [exact Hunknown|].
      split; [intros _ H; contradiction|]. intros _. split; reflexivity.
    + split; [reflexivity|]. split; [reflexivity|]. split; [exact Hne|].
      split; [exact Hname|]. split; [exact Hunknown|].
      split; [intros _ _; split; reflexivity|].
      intros [H|H]; [exfalso; apply H; reflexivity|contradiction].
Qed.

(** X8. When the member list of a room cannot be fetched, the room gets no
    check and no report: after the two state events and the failed
    [JoinedMembers] call nothing reaches the network or the client, no
    message is sent, and the last console line names the room and the
    error. *)
Theorem no_members_no_report (roomID msg : string) (w : W) :
  let d := getRoomDetails env roomID w in
  roomID <> LogRoom config ->
  fst (client_JoinedMembers env roomID (final d)) = Failure msg ->
  calls (trace (checkRoom env config roomID w))
  = [StateEvent roomID "m.room.name" ""; StateEvent roomID "m.room.canonical_alias" "";
     JoinedMembers roomID]
  /\ sent (trace (checkRoom env config roomID w)) = []
  /\ last (printed (trace (checkRoom env config roomID w))) ""
     = "Failed to get joined members for room " ++ roomID ++ ": " ++ msg ++ LF.
Proof.
  intros d Hne Hmembers. subst d.
  rewrite (checkRoom_run_no_members env config roomID msg w Hne Hmembers).
  rewrite calls_app, sent_app, printed_app, getRoomDetails_calls.
  destruct (getRoomDetails_withinRoom env roomID w) as [_ Hquiet].
  rewrite Hquiet. cbn [calls sent printed app].
  repeat split.
  match goal with
  | |- last (?l ++ [?a; ?b])%list _ = _ =>
      change (l ++ [a; b])%list with (l ++ [a] ++ [b])%list
  end.
  rewrite app_assoc, last_last. reflexivity.
Qed.

End SweepMore.

Section SweepLoop.

Context {W : Type}.
Variable env : Env W.
Variable config : Config.

(** X9. A room with no joined member is reported as all OK: apart from the
    two state events and the member list, the only call is the one message
    to the log room, and nothing is resolved or probed. *)
Theorem empty_room_is_all_ok (roomID : string) (w : W) :
  let d := getRoomDetails env roomID w in
  let description := roomDescription (fst (value d)) (snd (value d)) roomID in
  let text := "All Servers in room " ++ description ++ " are OK" in
  roomID <> LogRoom config ->
  fst (client_JoinedMembers env roomID (final d)) = Success [] ->
  calls (trace (checkRoom env config roomID w))
  = [StateEvent roomID "m.room.name" ""; StateEvent roomID "m.room.canonical_alias" "";
     JoinedMembers roomID; SendText (LogRoom config) text]
  /\ sent (trace (checkRoom env config roomID w)) = [(LogRoom config, text)].
Proof.
  intros d description text Hne Hmembers. subst d description text.
  rewrite (checkRoom_run env config roomID [] w Hne Hmembers).
  rewrite calls_app, sent_app, getRoomDetails_calls.
  destruct (getRoomDetails_withinRoom env roomID w) as [_ Hquiet].
  rewrite Hquiet. split; reflexivity.
Qed.

(** X10. The failure message of a room names every failure.  With
    [results] the domain of every member and the status [checkServer]
    returned for it, in the order visited, the one message sent to the log
    room holds the line "{domain} - {status}" of every member whose status
    is not ["OK"]. *)
Theorem report_names_every_failure (roomID : string) (joined : list string) (w : W) :
  let d := getRoomDetails env roomID w in
  let description := roomDescription (fst (value d)) (snd (value d)) roomID in
  let members := client_JoinedMembers env roomID (final d) in
  let results := value (memberChecks env joined (snd members)) in
  let text := reportText description (map statusLine (filter notOK results)) in
  roomID <> LogRoom config ->
  fst members = Success joined ->
  map fst results = map extractDomain joined
  /\ sent (trace (checkRoom env config roomID w)) = [(LogRoom config, text)]
  /\ (forall entry, In entry results -> notOK entry = true ->
        containsText text (statusLine entry)).
Proof.
  intros d description members results text Hne Hmembers.
  pose proof (checkRoom_run env config roomID joined w Hne Hmembers) as Hrun.
  cbv zeta in Hrun.
  subst text results members description d.
  destruct (memberChecks_shape env joined
              (snd (client_JoinedMembers env roomID (final (getRoomDetails env roomID w)))))
    as [Hdomains [Hall Hprobing]].
  destruct (filter_isFailed_notOK _ Hall) as [Hfilter _].
  destruct (getRoomDetails_withinRoom env roomID w) as [_ Hquiet].
  rewrite checkMembers_run in Hrun.
  rewrite ?value_triple, ?trace_triple in Hrun.
  cbn [fst snd app] in Hrun. rewrite Hfilter in Hrun.
  split; [exact Hdomains|].
  split.
  - rewrite Hrun, sent_app, Hquiet. cbn [sent app].
    rewrite sent_app, (probing_sent _ Hprobing). reflexivity.
  - intros entry Hin Hfailed.
    assert (Hline : In (statusLine entry)
                       (map statusLine
                          (filter notOK
                             (value (memberChecks env joined
                                (snd (client_JoinedMembers env roomID
                                        (final (getRoomDetails env roomID w))))))))).
    { apply in_map, filter_In. split; assumption. }
    unfold reportText.
    destruct (map statusLine (filter notOK _)) as [|l ls] eqn:Hl; [destruct Hline|].
    cbn [length Nat.ltb Nat.leb].
    rewrite <- !append_associative.
    apply containsText_prefixed, Join_contains, Hline.
Qed.

(** What the body of the room loop sends, case by case. *)
Lemma checkRoom_sent_cases (roomID : string) (w : W) :
  let members := client_JoinedMembers env roomID (final (getRoomDetails env roomID w)) in
  (roomID = LogRoom config \/ exists msg, fst members = Failure msg)
  /\ sent (trace (checkRoom env config roomID w)) = []
  \/ roomID <> LogRoom config
     /\ exists joined text,
          fst members = Success joined
          /\ sent (trace (checkRoom env config roomID w)) = [(LogRoom config, text)].
Proof.
  intros members. subst members.
  destruct (String.eqb_spec roomID (LogRoom config)) as [Heq|Hne].
  - left. split; [left; exact Heq|]. subst roomID.
    rewrite checkRoom_log_room. reflexivity.
  - destruct (getRoomDetails_withinRoom env roomID w) as [_ Hquiet].
    destruct (fst (client_JoinedMembers env roomID (final (getRoomDetails env roomID w))))
      as [joined|msg] eqn:Hm.
    + right. split; [exact Hne|]. exists joined. eexists. split; [reflexivity|].
      rewrite (checkRoom_run env config roomID joined w Hne Hm).
      destruct (checkMembers_spec env joined [] []
                  (snd (client_JoinedMembers env roomID
                          (final (getRoomDetails env roomID w)))))
        as [results [_ [_ [_ Hprobing]]]].
      rewrite sent_app, Hquiet. cbn [sent app].
      rewrite sent_app, (probing_sent _ Hprobing). reflexivity.
    + left. split; [right; exists msg; reflexivity|].
      rewrite (checkRoom_run_no_members env config roomID msg w Hne Hm).
      rewrite sent_app, Hquiet. reflexivity.
Qed.

Lemma checkRooms_sent_cons (roomID : string) (rest : list string) (w : W) :
  sent (trace (checkRooms env config (roomID :: rest) w))
  = (sent (trace (checkRoom env config roomID w))
     ++ sent (trace (checkRooms env config rest (final (checkRoom env config roomID w)))))%list.
Proof. rewrite checkRooms_cons_trace, sent_app. reflexivity. Qed.

Lemma run_emit (a : Action) (w : W) : emit a w = (tt, [a], w).
Proof. reflexivity. Qed.

(** One turn of the loop, by the answer to [JoinedRooms]. *)
Lemma sweep_run (w : W) :
  let answer := client_JoinedRooms env w in
  sweep env config w
  = match fst answer with
    | Failure err =>
        (tt,
         [Print ("Checking server statuses..." ++ LF); JoinedRooms;
          Print ("Failed to fetch joined rooms: " ++ err ++ LF); Sleep (pause config)],
         snd answer)
    | Success rooms =>
        (tt,
         (Print ("Checking server statuses..." ++ LF) :: JoinedRooms
          :: trace (checkRooms env config rooms (snd answer))
          ++ [Print ("Waiting for " ++ fmt.decimal (Interval config) ++ " seconds" ++ LF);
              Sleep (pause config)])%list,
         final (checkRooms env config rooms (snd answer)))
    end.
Proof.
  intros answer. subst answer. unfold sweep, pause.
  rewrite run_bind, run_emit, ?value_triple, ?trace_triple, ?final_triple.
  rewrite run_bind, run_call, ?value_triple, ?trace_triple, ?final_triple.
  destruct (client_JoinedRooms env w) as [[rooms|err] w1]; cbn [fst snd].
  - rewrite run_bind.
    destruct (checkRooms env config rooms w1) as [[[] tr] w2].
    rewrite ?value_triple, ?trace_triple, ?final_triple.
    rewrite run_bind, !run_emit, ?value_triple, ?trace_triple, ?final_triple.
    reflexivity.
  - rewrite run_bind, !run_emit, ?value_triple, ?trace_triple, ?final_triple.
    reflexivity.
Qed.

Lemma runServerCheckLoop_S (turns : nat) (w : W) :
  runServerCheckLoop env config (S turns) w
  = (value (runServerCheckLoop env config turns (final (sweep env config w))),
     (trace (sweep env config w)
      ++ trace (runServerCheckLoop env config turns (final (sweep env config w))))%list,
     final (runServerCheckLoop env config turns (final (sweep env config w)))).
Proof.
  change (runServerCheckLoop env config (S turns) w)
    with (bind (sweep env config) (fun _ => runServerCheckLoop env config turns) w).
  rewrite run_bind. reflexivity.
Qed.

Lemma checkRooms_sent_to_log_room (rooms : list string) (w : W) :
  Forall (fun m => fst m = LogRoom config) (sent (trace (checkRooms env config rooms w))).
Proof.
  revert w. induction rooms as [|roomID rest IH]; intros w; [constructor|].
  rewrite checkRooms_sent_cons. apply Forall_app. split; [|apply IH].
  destruct (checkRoom_sent_cases roomID w) as [[_ Hs]|[_ [joined [text [_ Hs]]]]];
    rewrite Hs; repeat constructor.
Qed.

Lemma sweep_sent (w : W) :
  sent (trace (sweep env config w))
  = match fst (client_JoinedRooms env w) with
    | Failure _ => []
    | Success rooms => sent (trace (checkRooms env config rooms (snd (client_JoinedRooms env w))))
    end.
Proof.
  rewrite sweep_run.
  destruct (fst (client_JoinedRooms env w)) as [rooms|err]; rewrite trace_triple.
  - cbn [sent]. rewrite sent_app. cbn [sent]. rewrite app_nil_r. reflexivity.
  - reflexivity.
Qed.

(** X11. Whatever the homeserver and the network answer, and however many
    turns the loop runs, every message the program sends is addressed to the
    configured log room: it never posts into a monitored room. *)
Theorem only_log_room_receives (turns : nat) (w : W) :
  Forall (fun m => fst m = LogRoom config)
         (sent (trace (runServerCheckLoop env config turns w))).
Proof.
  revert w. induction turns as [|turns IH]; intros w; [constructor|].
  rewrite runServerCheckLoop_S, trace_triple, sent_app.
  apply Forall_app. split; [|apply IH].
  rewrite sweep_sent.
  destruct (fst (client_JoinedRooms env w)); [|constructor].
  apply checkRooms_sent_to_log_room.
Qed.

(** X12. A pass over the rooms sends at most one message for each room
    other than the log room; when the member list of every room can be
    fetched it sends exactly one for each. *)
Theorem one_message_per_room (rooms : list string) (w : W) :
  let others := filter (fun r => negb (r =? LogRoom config)%string) rooms in
  (length (sent (trace (checkRooms env config rooms w))) <= length others)%nat
  /\ ((forall r w', exists joined, fst (client_JoinedMembers env r w') = Success joined) ->
      length (sent (trace (checkRooms env config rooms w))) = length others).
Proof.
  intros others. subst others. split.
  - revert w. induction rooms as [|roomID rest IH]; intros w; [simpl; lia|].
    rewrite checkRooms_sent_cons, length_app. cbn [filter].
    specialize (IH (final (checkRoom env config roomID w))).
    destruct (checkRoom_sent_cases roomID w)
      as [[Hwhy Hs]|[Hne [joined [text [_ Hs]]]]]; rewrite Hs; cbn [length].
    + destruct (negb (roomID =? LogRoom config)%string); cbn [length]; lia.
    + apply String.eqb_neq in Hne. rewrite Hne. cbn [negb length]. lia.
  - intros Halways. revert w.
    induction rooms as [|roomID rest IH]; intros w; [reflexivity|].
    rewrite checkRooms_sent_cons, length_app. cbn [filter].
    specialize (IH (final (checkRoom env config roomID w))).
    destruct (checkRoom_sent_cases roomID w)
      as [[[Heq|[msg Hfail]] Hs]|[Hne [joined [text [_ Hs]]]]]; rewrite Hs; cbn [length].
    + subst roomID. rewrite String.eqb_refl. cbn [negb]. exact IH.
    + destruct (Halways roomID (final (getRoomDetails env roomID w))) as [joined Hok].
      rewrite Hok in Hfail. discriminate.
    + apply String.eqb_neq in Hne. rewrite Hne. cbn [negb length]. lia.
Qed.

End SweepLoop.

(** ** Counting calls and pauses *)

Lemma wrap64_in_range (z : Z) :
  (- 2 ^ 63 <= z < 2 ^ 63)%Z -> wrap64 z = z.
Proof.
  intros H. unfold wrap64.
  rewrite Z.mod_small by lia. lia.
Qed.

Lemma withinRoom_no_loop_actions (room : string) (t : list Action) :
  forallb (withinRoom room) t = true ->
  filter isJoinedRooms t = [] /\ filter isSleep t = [].
Proof.
  induction t as [|a t IH]; intros H; [split; reflexivity|].
  simpl in H. apply andb_true_iff in H as [Ha Ht].
  destruct (IH Ht) as [IHj IHs].
  destruct a; simpl in *; try discriminate; split; assumption.
Qed.

Section Counting.

Context {W : Type}.
Variable env : Env W.
Variable config : Config.

Lemma checkServer_counts (server : string) (w : W) :
  let t := trace (checkServer env server w) in
  length (filter isWellKnownGet t) = 1%nat
  /\ length (filter isProbeGet t) = 1%nat
  /\ (2 <= length (calls t) <= 3)%nat.
Proof.
  intros t. subst t. rewrite checkServer_trace.
  destruct (checkServerOnline_trace env
              (fst (value (resolveMatrixServer env server w)))
              (final (resolveMatrixServer env server w)))
    as [lines [Hp Hlines]].
  rewrite Hp.
  destruct (resolve_trace env server w) as [Hr|Hr]; rewrite Hr;
    destruct Hlines as [->|[text ->]]; repeat split; simpl; lia.
Qed.

(** X13. The member loop checks every member on its own: for a room with
    [n] members it makes exactly [n] well-known GETs and exactly [n] probes,
    between [2n] and [3n] calls in all, whether or not members share a
    domain, and it adds exactly one line per member to the status list. *)
Theorem checkMembers_cost (joined serverStatus failedServers : list string) (w : W) :
  let r := checkMembers env joined serverStatus failedServers w in
  length (filter isWellKnownGet (trace r)) = length joined
  /\ length (filter isProbeGet (trace r)) = length joined
  /\ (2 * length joined <= length (calls (trace r)) <= 3 * length joined)%nat
  /\ length (fst (value r)) = (length serverStatus + length joined)%nat
  /\ (length failedServers <= length (snd (value r))
      <= length failedServers + length joined)%nat.
Proof.
  intros r. subst r.
  revert serverStatus failedServers w.
  induction joined as [|userID rest IH]; intros serverStatus failedServers w.
  - simpl. repeat split; lia.
  - rewrite checkMembers_cons, value_triple, trace_triple.
    destruct (checkServer_counts (extractDomain userID) w) as [Hw [Hp Hc]].
    set (status := value (checkServer env (extractDomain userID) w)) in *.
    destruct (IH (append serverStatus (extractDomain userID ++ " - " ++ status))
                 (if strings.HasPrefix status "Failed"
                  then append failedServers (extractDomain userID ++ " - " ++ status)
                  else failedServers)
                 (final (checkServer env (extractDomain userID) w)))
      as [IHw [IHp [IHc [IHs IHf]]]].
    rewrite !filter_app, calls_app, !length_app, Hw, Hp, IHw, IHp, IHs.
    assert (Hfl : (length failedServers
                   <= length (if strings.HasPrefix status "Failed"
                              then append failedServers
                                     (extractDomain userID ++ " - " ++ status)
                              else failedServers)
                   <= S (length failedServers))%nat).
    { destruct (strings.HasPrefix status "Failed"); unfold append;
        rewrite ?length_app; simpl; lia. }
    unfold append in *. rewrite length_app. cbn [length]. repeat split; lia.
Qed.

Lemma checkRooms_no_loop_actions (rooms : list string) (w : W) :
  filter isJoinedRooms (trace (checkRooms env config rooms w)) = []
  /\ filter isSleep (trace (checkRooms env config rooms w)) = [].
Proof.
  revert w. induction rooms as [|roomID rest IH]; intros w; [split; reflexivity|].
  rewrite checkRooms_cons_trace, !filter_app.
  destruct (withinRoom_no_loop_actions roomID _ (checkRoom_withinRoom env config roomID w))
    as [Hj Hs].
  destruct (IH (final (checkRoom env config roomID w))) as [IHj IHs].
  rewrite Hj, Hs, IHj, IHs. split; reflexivity.
Qed.

(** X14. Every turn of the loop lists the joined rooms once and pauses
    once, for the configured interval, whatever happened in between: in any
    number of turns there are as many [JoinedRooms] calls and as many pauses
    as turns, and every pause has the same duration. *)
Theorem one_listing_and_one_pause_per_turn (turns : nat) (w : W) :
  filter isJoinedRooms (trace (runServerCheckLoop env config turns w))
  = repeat JoinedRooms turns
  /\ filter isSleep (trace (runServerCheckLoop env config turns w))
     = repeat (Sleep (pause config)) turns.
Proof.
  revert w. induction turns as [|turns IH]; intros w; [split; reflexivity|].
  rewrite runServerCheckLoop_S, trace_triple, !filter_app.
  destruct (IH (final (sweep env config w))) as [IHj IHs]. rewrite IHj, IHs.
  rewrite sweep_run.
  destruct (fst (client_JoinedRooms env w)) as [rooms|err]; rewrite trace_triple.
  - destruct (checkRooms_no_loop_actions rooms (snd (client_JoinedRooms env w)))
      as [Hj Hs].
    cbn [filter isJoinedRooms isSleep]. rewrite !filter_app, Hj, Hs.
    split; reflexivity.
  - split; reflexivity.
Qed.

(** X15. While the homeserver refuses to list the rooms the loop does
    nothing but retry: each turn is one [JoinedRooms] call followed by one
    pause, no room is looked at, nothing is resolved or probed and no message
    is sent. *)
Theorem room_list_failure_only_retries (turns : nat) (w : W) :
  (forall w', exists msg, fst (client_JoinedRooms env w') = Failure msg) ->
  calls (trace (runServerCheckLoop env config turns w))
  = concat (repeat [JoinedRooms; Sleep (pause config)] turns)
  /\ sent (trace (runServerCheckLoop env config turns w)) = [].
Proof.
  intros Hfail. revert w.
  induction turns as [|turns IH]; intros w; [split; reflexivity|].
  rewrite runServerCheckLoop_S, trace_triple, calls_app, sent_app.
  destruct (IH (final (sweep env config w))) as [IHc IHs]. rewrite IHc, IHs.
  rewrite sweep_run. destruct (Hfail w) as [msg Hmsg]. rewrite Hmsg, trace_triple.
  split; reflexivity.
Qed.

(** X16. For an interval between -9223372036 and 9223372036 seconds the
    product [time.Duration(config.Interval) * time.Second] does not
    overflow: the pause that ends every turn is exactly [Interval] seconds.
    In particular an interval of zero or less gives a pause that is not
    positive. *)
Theorem pause_is_interval_seconds (w : W) :
  (-9223372036 <= Interval config <= 9223372036)%Z ->
  pause config = (Interval config * 1000000000)%Z
  /\ last (trace (sweep env config w)) (Print "")
     = Sleep (Interval config * 1000000000)%Z
  /\ ((Interval config <= 0)%Z -> (pause config <= 0)%Z).
Proof.
  intros Hrange.
  assert (Hpause : pause config = (Interval config * 1000000000)%Z).
  { unfold pause, Second.
    rewrite (wrap64_in_range (Interval config)) by lia.
    apply wrap64_in_range. lia. }
  split; [exact Hpause|]. split; [|rewrite Hpause; lia].
  rewrite sweep_run.
  destruct (fst (client_JoinedRooms env w)) as [rooms|err]; rewrite trace_triple.
  - match goal with
    | |- last (?a :: ?b :: ?t ++ [?c; ?d])%list _ = _ =>
        replace (a :: b :: t ++ [c; d])%list with ((a :: b :: t ++ [c]) ++ [d])%list
          by (simpl; rewrite <- app_assoc; reflexivity)
    end.
    rewrite last_last, Hpause. reflexivity.
  - cbn [last]. rewrite Hpause. reflexivity.
Qed.

End Counting.

(** ** Start-up *)

Lemma running_Running (t : list Action) : running (map Running t) = t.
Proof. induction t as [|a t IH]; simpl; [reflexivity|]. rewrite IH. reflexivity. Qed.

Lemma startups_Running (t : list Action) : startups (map Running t) = [].
Proof. induction t as [|a t IH]; simpl; [reflexivity|exact IH]. Qed.

Section StartupProperties.

Context {W : Type}.
Variable host : Host W.
Variable env : Env W.

(** X17. When the configuration file is read and parsed, the username is
    valid, the client is created and the login succeeds, [main] reads
    [config.yaml] once, logs in once with the username and password of the
    file, installs the access token the login returned, and from then on is
    the check loop run with the configuration of the file, in the world the
    login left. *)
Theorem main_enters_loop_after_startup
  (turns : nat) (config : Config) (token : string) (w w' : W) :
  let loop := runServerCheckLoop env config turns w' in
  startupSucceeds host w config token w' ->
  startups (steps (main host env turns w))
  = [ReadFile "config.yaml"; Login (Username config) (Password config);
     SetAccessToken token]
  /\ calls (running (steps (main host env turns w))) = calls (trace loop)
  /\ sent (running (steps (main host env turns w))) = sent (trace loop)
  /\ world (main host env turns w) = final loop.
Proof.
  intros loop [data [w1 [Hread [Hyaml [Hvalid [Hclient Hlogin]]]]]]. subst loop.
  unfold main, loadConfig, bindM, say, startup, note, retM, lift, steps, world.
  rewrite Hread, Hyaml, Hvalid, Hclient, Hlogin.
  destruct (runServerCheckLoop env config turns w') as [[u t] w2].
  cbn [fst snd app startups running calls sent trace final].
  rewrite startups_Running, running_Running.
  repeat split.
Qed.

(** X18. When any step of the start-up fails, [main] never reaches the
    loop: apart from console lines it performs no action of the loop's kind
    (no room is listed, nothing is resolved, probed or sent), it never
    installs a token, and it has attempted the login only if the file was
    read and parsed, the username valid and the client created. *)
Theorem main_stops_when_startup_fails (turns : nat) (w : W) :
  let t := steps (main host env turns w) in
  (forall config token w', ~ startupSucceeds host w config token w') ->
  calls (running t) = []
  /\ (startups t = [ReadFile "config.yaml"]
      \/ exists (data : string) (config : Config),
           fst (ioutil_ReadFile host "config.yaml" w) = Success data
           /\ yaml_Unmarshal host data zeroConfig = (config, None)
           /\ UserID_ParseAndValidate host (Username config) = None
           /\ mautrix_NewClient host (ServerName config) "" "" = None
           /\ startups t
              = [ReadFile "config.yaml"; Login (Username config) (Password config)]).
Proof.
  intros t Hfails. subst t.
  unfold main, loadConfig, bindM, say, startup, note, retM, lift, steps, world.
  destruct (ioutil_ReadFile host "config.yaml" w) as [[data|msg] w1] eqn:Hread;
    [|split; [reflexivity|left; reflexivity]].
  destruct (yaml_Unmarshal host data zeroConfig) as [config [msg|]] eqn:Hyaml;
    [split; [reflexivity|left; reflexivity]|].
  destruct (UserID_ParseAndValidate host (Username config)) as [msg|] eqn:Hvalid;
    [split; [reflexivity|left; reflexivity]|].
  destruct (mautrix_NewClient host (ServerName config) "" "") as [msg|] eqn:Hclient;
    [split; [reflexivity|left; reflexivity]|].
  destruct (client_Login host (Username config) (Password config) w1)
    as [[token|msg] w2] eqn:Hlogin.
  - exfalso. apply (Hfails config token w2).
    exists data, w1. repeat split; assumption.
  - split; [reflexivity|]. right. exists data, config. repeat split; assumption.
Qed.

End StartupProperties.

(** ** Two more facts: well-formed SRV targets, and the log room over the
    whole loop *)

Section Closing.

Context {W : Type}.
Variable env : Env W.
Variable config : Config.

(** X19. On an SRV target written the way DNS writes names, with no leading
    dot and not ending in two dots, the resolver's answer is the target with
    its one trailing dot, if any, removed, a colon and the port. *)
Theorem srv_target_in_dns_form
  (server : string) (got : result Response) (srv : SRV) (others : list SRV) (w w1 w2 : W) :
  http_Get env None (wellKnownURL server) w = (got, w1) ->
  wellKnownFails env got ->
  net_LookupSRV env "matrix" "tcp" server w1 = ((srv :: others, None), w2) ->
  startsWithDot (Target srv) = false ->
  endsWithTwoDots (Target srv) = false ->
  fst (value (resolveMatrixServer env server w)) = stripTrailingDotHostPort srv.
Proof.
  intros Hget Hfail Hsrv Hstart Hend.
  rewrite (resolve_after_well_known env server w w1 got Hget Hfail), Hsrv.
  unfold stripTrailingDotHostPort.
  rewrite value_triple. cbn [fst].
  rewrite (Trim_dot_TrimSuffix _ Hstart Hend). reflexivity.
Qed.

Lemma checkRooms_untouched (rooms : list string) (w : W) :
  existsb (touchesRoom (LogRoom config)) (trace (checkRooms env config rooms w)) = false.
Proof.
  revert w. induction rooms as [|roomID rest IH]; intros w; [reflexivity|].
  rewrite checkRooms_cons_trace, existsb_app, IH, orb_false_r.
  destruct (String.eqb_spec roomID (LogRoom config)) as [Heq|Hne].
  - subst roomID. rewrite checkRoom_log_room. reflexivity.
  - apply (withinRoom_touchesRoom roomID); [exact Hne|].
    apply checkRoom_withinRoom.
Qed.

(** X20. However many turns the loop runs and whatever the rooms listed at
    each turn, no state event and no member list is ever asked for the log
    room. *)
Theorem log_room_untouched_by_loop (turns : nat) (w : W) :
  existsb (touchesRoom (LogRoom config))
          (trace (runServerCheckLoop env config turns w)) = false.
Proof.
  revert w. induction turns as [|turns IH]; intros w; [reflexivity|].
  rewrite runServerCheckLoop_S, trace_triple, existsb_app, IH, orb_false_r.
  rewrite sweep_run.
  destruct (fst (client_JoinedRooms env w)) as [rooms|err]; rewrite trace_triple.
  - cbn [existsb touchesRoom orb]. rewrite existsb_app, checkRooms_untouched.
    reflexivity.
  - reflexivity.
Qed.

End Closing.

(** ** The further properties at work in the sample worlds *)

Lemma srv_host_without_outer_dots_witness :
  let srv := {| Target := ".matrix.dotted.org."; Port := 8448; Priority := 10; Weight := 5 |} in
  let host := strings.Trim (Target srv) "." in
  (http_Get Demo.env None (wellKnownURL "dotted.org") 0%nat
   = (Failure "connection refused", 1%nat)
   /\ wellKnownFails Demo.env (Failure "connection refused")
   /\ net_LookupSRV Demo.env "matrix" "tcp" "dotted.org" 1%nat = (([srv], None), 2%nat))
  /\ (fst (value (resolveMatrixServer Demo.env "dotted.org" 0%nat))
      = host ++ ":" ++ fmt.decimal (Z.of_N (Port srv))
      /\ startsWithDot host = false
      /\ endsWithDot host = false
      /\ (host = "" <-> allDots (Target srv) = true)).
Proof.
  intros srv host.
  split; [repeat split; reflexivity|].
  apply (srv_host_without_outer_dots Demo.env "dotted.org" (Failure "connection refused")
           srv [] 0%nat 1%nat 2%nat); [reflexivity|exact I|reflexivity].
Defined.

Lemma no_members_no_report_witness :
  let d := getRoomDetails Demo.env "!e:x" 0%nat in
  let run := checkRoom Demo.env Demo.config "!e:x" 0%nat in
  ("!e:x" <> LogRoom Demo.config
   /\ fst (client_JoinedMembers Demo.env "!e:x" (final d)) = Failure "M_FORBIDDEN")
  /\ (calls (trace run)
      = [StateEvent "!e:x" "m.room.name" ""; StateEvent "!e:x" "m.room.canonical_alias" "";
         JoinedMembers "!e:x"]
      /\ sent (trace run) = []
      /\ last (printed (trace run)) ""
         = "Failed to get joined members for room " ++ "!e:x" ++ ": " ++ "M_FORBIDDEN" ++ LF).
Proof.
  intros d run.
  split; [split; [discriminate|reflexivity]|].
  apply (no_members_no_report Demo.env Demo.config "!e:x" "M_FORBIDDEN" 0%nat);
    [discriminate|reflexivity].
Defined.

Lemma empty_room_is_all_ok_witness :
  let d := getRoomDetails Worlds.vacant "!v:x" 0%nat in
  let description := roomDescription (fst (value d)) (snd (value d)) "!v:x" in
  let text := "All Servers in room " ++ description ++ " are OK" in
  let run := checkRoom Worlds.vacant Demo.config "!v:x" 0%nat in
  ("!v:x" <> LogRoom Demo.config
   /\ fst (client_JoinedMembers Worlds.vacant "!v:x" (final d)) = Success [])
  /\ (calls (trace run)
      = [StateEvent "!v:x" "m.room.name" ""; StateEvent "!v:x" "m.room.canonical_alias" "";
         JoinedMembers "!v:x"; SendText (LogRoom Demo.config) text]
      /\ sent (trace run) = [(LogRoom Demo.config, text)]).
Proof.
  intros d description text run.
  split; [split; [discriminate|reflexivity]|].
  apply (empty_room_is_all_ok Worlds.vacant Demo.config "!v:x" 0%nat);
    [discriminate|reflexivity].
Defined.

Lemma report_names_every_failure_witness :
  let joined := ["u1:good.org"; "u2:bad.org"] in
  let d := getRoomDetails Demo.env "!a:x" 0%nat in
  let description := roomDescription (fst (value d)) (snd (value d)) "!a:x" in
  let members := client_JoinedMembers Demo.env "!a:x" (final d) in
  let results := value (memberChecks Demo.env joined (snd members)) in
  let text := reportText description (map statusLine (filter notOK results)) in
  ("!a:x" <> LogRoom Demo.config /\ fst members = Success joined)
  /\ (map fst results = map extractDomain joined
      /\ sent (trace (checkRoom Demo.env Demo.config "!a:x" 0%nat))
         = [(LogRoom Demo.config, text)]
      /\ (forall entry, In entry results -> notOK entry = true ->
            containsText text (statusLine entry))).
Proof.
  intros joined d description members results text.
  split; [split; [discriminate|reflexivity]|].
  apply (report_names_every_failure Demo.env Demo.config "!a:x" joined 0%nat);
    [discriminate|reflexivity].
Defined.

Lemma one_message_per_room_witness :
  let rooms := ["!log:x"; "!a:x"; "!b:x"] in
  let others := filter (fun r => negb (r =? LogRoom Demo.config)%string) rooms in
  (forall (r : string) (w' : Demo.World),
     exists joined, fst (client_JoinedMembers Worlds.uniform r w') = Success joined)
  /\ length (sent (trace (checkRooms Worlds.uniform Demo.config rooms 0%nat)))
     = length others.
Proof.
  intros rooms others.
  assert (Halways : forall (r : string) (w' : Demo.World),
            exists joined, fst (client_JoinedMembers Worlds.uniform r w') = Success joined).
  { intros r w'. exists ["@u:good.org"]. reflexivity. }
  split; [exact Halways|].
  apply (proj2 (one_message_per_room Worlds.uniform Demo.config rooms 0%nat)), Halways.
Defined.

Lemma room_list_failure_only_retries_witness :
  (forall w' : Demo.World,
     exists msg, fst (client_JoinedRooms Worlds.offline w') = Failure msg)
  /\ (calls (trace (runServerCheckLoop Worlds.offline Demo.config 2 0%nat))
      = concat (repeat [JoinedRooms; Sleep (pause Demo.config)] 2)
      /\ sent (trace (runServerCheckLoop Worlds.offline Demo.config 2 0%nat)) = []).
Proof.
  assert (Hfail : forall w' : Demo.World,
            exists msg, fst (client_JoinedRooms Worlds.offline w') = Failure msg).
  { intros w'. exists "M_UNKNOWN_TOKEN". reflexivity. }
  split; [exact Hfail|].
  apply (room_list_failure_only_retries Worlds.offline Demo.config 2 0%nat), Hfail.
Defined.

Lemma pause_is_interval_seconds_witness :
  (-9223372036 <= Interval Demo.config <= 9223372036)%Z
  /\ (pause Demo.config = (Interval Demo.config * 1000000000)%Z
      /\ last (trace (sweep Demo.env Demo.config 0%nat)) (Print "")
         = Sleep (Interval Demo.config * 1000000000)%Z
      /\ ((Interval Demo.config <= 0)%Z -> (pause Demo.config <= 0)%Z)).
Proof.
  assert (Hrange : (-9223372036 <= Interval Demo.config <= 9223372036)%Z).
  { simpl. lia. }
  split; [exact Hrange|].
  apply (pause_is_interval_seconds Demo.env Demo.config 0%nat), Hrange.
Defined.

Lemma main_enters_loop_after_startup_witness :
  let loop := runServerCheckLoop Demo.env Demo.config 1 2%nat in
  let run := main Worlds.host Demo.env 1 0%nat in
  startupSucceeds Worlds.host 0%nat Demo.config "syt_token" 2%nat
  /\ (startups (steps run)
      = [ReadFile "config.yaml";
         Login (Username Demo.config) (Password Demo.config);
         SetAccessToken "syt_token"]
      /\ calls (running (steps run)) = calls (trace loop)
      /\ sent (running (steps run)) = sent (trace loop)
      /\ world run = final loop).
Proof.
  intros loop run.
  assert (Hok : startupSucceeds Worlds.host 0%nat Demo.config "syt_token" 2%nat).
  { exists "servername: https://x", 1%nat. repeat split; reflexivity. }
  split; [exact Hok|].
  apply (main_enters_loop_after_startup Worlds.host Demo.env 1 Demo.config "syt_token"
           0%nat 2%nat), Hok.
Defined.

Lemma main_stops_when_startup_fails_witness :
  let t := steps (main Worlds.noFile Demo.env 1 0%nat) in
  (forall config token w', ~ startupSucceeds Worlds.noFile 0%nat config token w')
  /\ (calls (running t) = []
      /\ (startups t = [ReadFile "config.yaml"]
          \/ exists (data : string) (config : Config),
               fst (ioutil_ReadFile Worlds.noFile "config.yaml" 0%nat) = Success data
               /\ yaml_Unmarshal Worlds.noFile data zeroConfig = (config, None)
               /\ UserID_ParseAndValidate Worlds.noFile (Username config) = None
               /\ mautrix_NewClient Worlds.noFile (ServerName config) "" "" = None
               /\ startups t
                  = [ReadFile "config.yaml";
                     Login (Username config) (Password config)])).
Proof.
  intros t.
  assert (Hfails : forall config token w',
            ~ startupSucceeds Worlds.noFile 0%nat config token w').
  { intros config token w' [data [w1 [Hread _]]]. discriminate Hread. }
  split; [exact Hfails|].
  apply (main_stops_when_startup_fails Worlds.noFile Demo.env 1 0%nat), Hfails.
Defined.

(** The start-up and one turn of the loop, from the first console line to
    the pause. *)
Example main_one_turn :
  calls (running (steps (main Worlds.host Demo.env 1 0%nat)))
  = calls (trace (sweep Demo.env Demo.config 2%nat))
  /\ hd_error (steps (main Worlds.host Demo.env 1 0%nat))
     = Some (Running (Print ("Starting Matrix client..." ++ LF)))
  /\ steps (main Worlds.noFile Demo.env 1 0%nat)
     = [Running (Print ("Starting Matrix client..." ++ LF));
        Running (Print ("Loading configuration from: config.yaml" ++ LF));
        Startup (ReadFile "config.yaml");
        Running (Print ("Failed to load configuration: "
                        ++ "open config.yaml: no such file or directory" ++ LF))].
Proof. repeat split; reflexivity. Qed.

Lemma srv_target_in_dns_form_witness :
  let first := {| Target := "matrix.good.org."; Port := 8448; Priority := 10; Weight := 5 |} in
  let second := {| Target := "backup.good.org."; Port := 443; Priority := 20; Weight := 5 |} in
  (http_Get Demo.env None (wellKnownURL "good.org") 0%nat
   = (Failure "connection refused", 1%nat)
   /\ wellKnownFails Demo.env (Failure "connection refused")
   /\ net_LookupSRV Demo.env "matrix" "tcp" "good.org" 1%nat
      = ((first :: [second], None), 2%nat)
   /\ startsWithDot (Target first) = false
   /\ endsWithTwoDots (Target first) = false)
  /\ fst (value (resolveMatrixServer Demo.env "good.org" 0%nat))
     = stripTrailingDotHostPort first.
Proof.
  intros first second.
  split; [repeat split; reflexivity|].
  apply (srv_target_in_dns_form Demo.env "good.org" (Failure "connection refused")
           first [second] 0%nat 1%nat 2%nat);
    [reflexivity|exact I|reflexivity|reflexivity|reflexivity].
Defined.
